(** * Mean imputation of CSV tables: a model of [app.py]

    The development embeds the imputation engine of the Flask service
    ([calculate_imputation_stats] and the body of [process_file]) together
    with the part of pandas it relies on, and settles the properties the
    specification states about it.

    Modelling choices.
    - A double is a primitive binary64 float; a missing cell is NaN, as in
      pandas.  Integers are unbounded [Z] (Python [int]) or the payload of
      an [int64] column.
    - A [DataFrame] is an ordered list of named, typed columns.  The frames
      considered are those [pd.read_csv] produces: unique column names and
      columns of one common length ([well_formed]).
    - Python objects live in a heap of frames addressed by references, so
      that [original_df] and [processed_df] are two objects and in-place
      updates are visible through every alias of the updated object.
      [df[col]] is a view on the data of [df] (pandas before 3.0), so
      [df[col].fillna(v, inplace=True)] writes through to [df].
    - A stored CSV file is represented by the frame it parses to; parsing
      and printing of CSV text are outside the engine.
    - Exceptions are values of [exn]; the [try ... except Exception] of the
      route turns every one of them into a 500 response. *)

From Stdlib Require Import ZArith PrimFloat FloatOps SpecFloat.
From stdpp Require Import base option list strings gmap.

#[local] Set Warnings "-inexact-float".
Local Open Scope Z_scope.

(** ** Doubles and Python numbers *)

(** [float(z)] / the [int64 -> float64] cast: the nearest double, ties to
    even. *)
Definition Z2float (z : Z) : float :=
  SF2Prim (binary_normalize prec emax z 0 false).

Definition Z2SF (z : Z) : spec_float :=
  match z with
  | Z0 => S754_zero false
  | Zpos p => S754_finite false p 0
  | Zneg p => S754_finite true p 0
  end.

Inductive exn :=
| KeyError (key : string)
| TypeError
| ZeroDivisionError
| FileNotFoundError (path : string).

Inductive result (A : Type) :=
| Ok (a : A)
| Raise (e : exn).
Arguments Ok {A} a.
Arguments Raise {A} e.

#[global] Instance result_ret : MRet result := fun A a => Ok a.
#[global] Instance result_bind : MBind result := fun A B f m =>
  match m with
  | Ok a => f a
  | Raise e => Raise e
  end.

(** Python's [a / b] on two [int]s: the correctly rounded quotient, or
    [ZeroDivisionError]. *)
Definition int_true_div (a b : Z) : result float :=
  if b =? 0 then Raise ZeroDivisionError
  else Ok (SF2Prim (SFdiv prec emax (Z2SF a) (Z2SF b))).

(** Nearest integer to [num / den] for [den > 0], ties to even. *)
Definition round_half_even (num den : Z) : Z :=
  let q := num / den in
  let r := num mod den in
  match (2 * r ?= den) with
  | Lt => q
  | Gt => q + 1
  | Eq => if Z.even q then q else q + 1
  end.

(** Python's [round(x, ndigits)] on a float, [ndigits >= 0]: the exact
    binary value of [x] is rounded to [ndigits] decimals, ties to even, and
    the decimal result is converted back to the nearest double. *)
Definition py_round (x : float) (ndigits : nat) : float :=
  match Prim2SF x with
  | S754_finite s m e =>
      let p := 10 ^ Z.of_nat ndigits in
      let n := if 0 <=? e then Zpos m * 2 ^ e * p
               else round_half_even (Zpos m * p) (2 ^ (- e)) in
      match n with
      | Zpos q => SF2Prim (SFdiv prec emax (S754_finite s q 0) (Z2SF p))
      | _ => SF2Prim (S754_zero s)
      end
  | _ => x
  end.

(** ** pandas values *)

(** The run-time objects a cell can be read as.  NumPy scalars and native
    Python objects are distinct classes: [isinstance(v, np.integer)] holds
    of [NpInt64] only, [isinstance(v, np.floating)] of [NpFloat64] only. *)
Inductive scalar :=
| NpInt64 (z : Z)
| NpFloat64 (f : float)
| NpBool (b : bool)
| PyInt (z : Z)
| PyFloat (f : float)
| PyBool (b : bool)
| PyStr (s : string).

#[global] Instance scalar_inhabited : Inhabited scalar := populate (PyFloat nan).

(** [pd.isna] on a scalar. *)
Definition pd_isna (value : scalar) : bool :=
  match value with
  | NpFloat64 f | PyFloat f => is_nan f
  | _ => false
  end.

Inductive dtype := int64 | float64 | bool_ | object_.

#[global] Instance dtype_eq_dec : EqDecision dtype.
Proof. solve_decision. Defined.

(** A column.  An [object] column holds arbitrary Python objects; after
    [read_csv] these are strings and the NaN marker [PyFloat nan]. *)
Inductive Series :=
| Int64Series (values : list Z)
| Float64Series (values : list float)
| BoolSeries (values : list bool)
| ObjectSeries (values : list scalar).

Definition Series_dtype (s : Series) : dtype :=
  match s with
  | Int64Series _ => int64
  | Float64Series _ => float64
  | BoolSeries _ => bool_
  | ObjectSeries _ => object_
  end.

Definition Series_len (s : Series) : nat :=
  match s with
  | Int64Series l => length l
  | Float64Series l => length l
  | BoolSeries l => length l
  | ObjectSeries l => length l
  end.

(** [s.isna()]: the mask of missing cells.  Integer and boolean columns
    cannot hold a missing value. *)
Definition isna (s : Series) : list bool :=
  match s with
  | Int64Series l => map (fun _ => false) l
  | Float64Series l => map is_nan l
  | BoolSeries l => map (fun _ => false) l
  | ObjectSeries l => map pd_isna l
  end.

(** [mask.any()] and [mask.sum()]. *)
Definition mask_any (mask : list bool) : bool := existsb id mask.
Definition mask_sum (mask : list bool) : nat := length (filter (fun b => b = true) mask).

(** Sum of doubles, accumulated from [0.0] in row order.  This is the sum
    as the specification words it and as pandas takes it when bottleneck
    is installed; without bottleneck pandas sums through NumPy, which from
    eight cells on adds in eight interleaved partial sums, so that the
    last digits of a mean can differ.  The order cannot matter for fewer
    than eight cells (up to the sign of a zero), and no property below
    states the value of a mean beyond that. *)
Definition fsum (l : list float) : float := fold_left PrimFloat.add l zero.

(** Mean of already extracted, non-missing values: NaN for none. *)
Definition mean_of (vals : list float) : float :=
  match vals with
  | [] => nan
  | _ => PrimFloat.div (fsum vals) (Z2float (Z.of_nat (length vals)))
  end.

(** [s.mean()] with the default [skipna=True]: NaN cells are excluded, the
    others are summed in double precision and divided by their number; the
    result is NaN when no value is left.  Integer (and boolean) columns are
    cast to [float64] first; an [object] column of text raises. *)
Definition Series_mean (s : Series) : result float :=
  match s with
  | Int64Series l => Ok (mean_of (map Z2float l))
  | Float64Series l => Ok (mean_of (filter (fun f => is_nan f = false) l))
  | BoolSeries l => Ok (mean_of (map (fun b : bool => if b then one else zero) l))
  | ObjectSeries _ => Raise TypeError
  end.

(** [s.fillna(value)]: every missing cell becomes [value]. *)
Definition fillna (value : float) (s : Series) : Series :=
  match s with
  | Float64Series l => Float64Series (map (fun f => if is_nan f then value else f) l)
  | ObjectSeries l => ObjectSeries (map (fun o => if pd_isna o then NpFloat64 value else o) l)
  | _ => s
  end.

(** [s.head(n)] on a mask. *)
Definition head_list {A} (n : nat) (l : list A) : list A := take n l.

Definition Series_head (n : nat) (s : Series) : Series :=
  match s with
  | Int64Series l => Int64Series (take n l)
  | Float64Series l => Float64Series (take n l)
  | BoolSeries l => BoolSeries (take n l)
  | ObjectSeries l => ObjectSeries (take n l)
  end.

(** The cells of a column cast to the dtype [d] of a row: [int64] and
    [float64] rows hold NumPy scalars; an [object] row holds what
    [astype(object)] yields, native Python numbers and booleans. *)
Definition astype (d : dtype) (s : Series) : list scalar :=
  match d, s with
  | int64, Int64Series l => map NpInt64 l
  | float64, Int64Series l => map (fun z => NpFloat64 (Z2float z)) l
  | float64, Float64Series l => map NpFloat64 l
  | bool_, BoolSeries l => map NpBool l
  | _, Int64Series l => map PyInt l
  | _, Float64Series l => map PyFloat l
  | _, BoolSeries l => map PyBool l
  | _, ObjectSeries l => l
  end.

(** ** Frames *)

Record DataFrame := {
  index_len : nat;                       (* len(df) *)
  columns : list (string * Series)       (* in declared order *)
}.

#[global] Instance DataFrame_inhabited : Inhabited DataFrame :=
  populate {| index_len := 0; columns := [] |}.

Definition column_names (df : DataFrame) : list string := map fst (columns df).

(** What [read_csv] guarantees: unique labels, rectangular data. *)
Definition well_formed (df : DataFrame) : bool :=
  bool_decide (NoDup (column_names df))
  && forallb (fun c => Nat.eqb (Series_len (snd c)) (index_len df)) (columns df).

Fixpoint assoc {A} (key : string) (l : list (string * A)) : option A :=
  match l with
  | [] => None
  | (k, v) :: l' => if String.eqb k key then Some v else assoc key l'
  end.

(** [df[col]] *)
Definition getitem (df : DataFrame) (col : string) : result Series :=
  match assoc col (columns df) with
  | Some s => Ok s
  | None => Raise (KeyError col)
  end.

Fixpoint replace_column (col : string) (s : Series) (l : list (string * Series))
  : list (string * Series) :=
  match l with
  | [] => []
  | (k, v) :: l' =>
      if String.eqb k col then (k, s) :: l' else (k, v) :: replace_column col s l'
  end.

(** The effect on [df] of updating the data behind [df[col]] in place. *)
Definition update_column (df : DataFrame) (col : string) (s : Series) : DataFrame :=
  {| index_len := index_len df; columns := replace_column col s (columns df) |}.

(** [np.number] covers the integer and floating dtypes, not [bool]. *)
Definition is_number (d : dtype) : bool :=
  match d with
  | int64 | float64 => true
  | _ => false
  end.

(** [df.select_dtypes(include=[np.number]).columns.tolist()] *)
Definition select_dtypes_number (df : DataFrame) : list string :=
  map fst (filter (fun c => is_number (Series_dtype (snd c)) = true) (columns df)).

(** [df.head(n)] *)
Definition head (n : nat) (df : DataFrame) : DataFrame :=
  {| index_len := Nat.min n (index_len df);
     columns := map (fun c => (fst c, Series_head n (snd c))) (columns df) |}.

(** The dtype of the rows [iterrows] yields: the common dtype of the
    columns.  Integers and floats meet at [float64]; any other mixture is
    [object]. *)
Definition common_dtype (ds : list dtype) : dtype :=
  match ds with
  | [] => float64
  | d :: ds' =>
      if forallb (fun d' => bool_decide (d' = d)) ds' then d
      else if forallb is_number ds then float64
      else object_
  end.

(** [df.iterrows()]: one [Series] per row, indexed by the column labels,
    all of its cells cast to the common dtype. *)
Definition iterrows (df : DataFrame) : list (list (string * scalar)) :=
  let d := common_dtype (map (fun c => Series_dtype (snd c)) (columns df)) in
  map (fun k => map (fun c => (fst c, astype d (snd c) !!! k)) (columns df))
      (seq 0 (index_len df)).

(** [row[col]] *)
Definition row_getitem (row : list (string * scalar)) (col : string) : result scalar :=
  match assoc col row with
  | Some v => Ok v
  | None => Raise (KeyError col)
  end.

(** ** The imputation report *)

Record stats := {
  total_rows : nat;
  total_columns : nat;
  numeric_columns : nat;
  column_means : gmap string float;
  imputed_counts : gmap string nat;
  total_imputations : nat;
  missing_data_rate : float
}.

(** The part of the [stats] dictionary the loop over the numeric columns
    updates: [(column_means, imputed_counts, total_imputations)]. *)
Definition stats_acc : Type := gmap string float * gmap string nat * nat.

(** One iteration of the loop of [calculate_imputation_stats]
    (app.py:38-46). *)
Definition stats_step (original_df : DataFrame) (acc : stats_acc) (col : string)
  : result stats_acc :=
  let '(means, counts, total) := acc in
  s ← getitem original_df col;
  let missing_count := mask_sum (isna s) in
  let counts := <[col := missing_count]> counts in
  let total := (total + missing_count)%nat in
  mean_val ← Series_mean s;
  let means := <[col := if negb (is_nan mean_val) then mean_val else zero]> means in
  Ok (means, counts, total).

Fixpoint stats_loop (original_df : DataFrame) (cols : list string) (acc : stats_acc)
  : result stats_acc :=
  match cols with
  | [] => Ok acc
  | col :: cols' => acc' ← stats_step original_df acc col; stats_loop original_df cols' acc'
  end.

(** [calculate_imputation_stats(original_df, processed_df, numeric_columns)]
    (app.py:27-55).  The function only reads its arguments; [processed_df]
    is not used. *)
Definition calculate_imputation_stats
    (original_df processed_df : DataFrame) (numeric_columns : list string)
  : result stats :=
  '(means, counts, total) ← stats_loop original_df numeric_columns (∅, ∅, 0%nat);
  let total_numeric_cells := (index_len original_df * length numeric_columns)%nat in
  rate ← (if (0 <? Z.of_nat total_numeric_cells)
          then q ← int_true_div (Z.of_nat total) (Z.of_nat total_numeric_cells);
               Ok (py_round (PrimFloat.mul q (Z2float 100)) 2)
          else Ok zero);
  Ok {| total_rows := index_len original_df;
        total_columns := length (columns original_df);
        numeric_columns := length numeric_columns;
        column_means := means;
        imputed_counts := counts;
        total_imputations := total;
        missing_data_rate := rate |}.

(** ** Preview and flags *)

(** A JSON value of the preview; [JText v] is the JSON string [str(v)]. *)
Inductive json_value :=
| JNull
| JInt (z : Z)
| JFloat (f : float)
| JText (v : scalar).

(** The [if]/[elif] chain applied to each cell of a preview row
    (app.py:171-178). *)
Definition to_native (value : scalar) : json_value :=
  if pd_isna value then JNull
  else match value with
       | NpInt64 z => JInt z
       | NpFloat64 f => JFloat f
       | _ => JText value
       end.

Fixpoint row_dict_loop (row : list (string * scalar)) (cols : list string)
    (row_dict : gmap string json_value) : result (gmap string json_value) :=
  match cols with
  | [] => Ok row_dict
  | col :: cols' =>
      value ← row_getitem row col;
      row_dict_loop row cols' (<[col := to_native value]> row_dict)
  end.

Fixpoint preview_loop (cols : list string) (rows : list (list (string * scalar)))
  : result (list (gmap string json_value)) :=
  match rows with
  | [] => Ok []
  | row :: rows' =>
      row_dict ← row_dict_loop row cols ∅;
      rest ← preview_loop cols rows';
      Ok (row_dict :: rest)
  end.

(** [preview_data] built from [preview_df] (app.py:166-179). *)
Definition make_preview_data (preview_df : DataFrame)
  : result (list (gmap string json_value)) :=
  preview_loop (column_names preview_df) (iterrows preview_df).

(** [imputation_flags] (app.py:182-185); [limit] is the [50] of
    [head(50)]. *)
Fixpoint flags_loop (limit : nat) (original_df : DataFrame) (cols : list string)
    (flags : gmap string (list bool)) : result (gmap string (list bool)) :=
  match cols with
  | [] => Ok flags
  | col :: cols' =>
      s ← getitem original_df col;
      let missing_mask := isna s in
      flags_loop limit original_df cols' (<[col := head_list limit missing_mask]> flags)
  end.

(** ** The heap, the upload folder and the request handler *)

Record world := {
  files : gmap string DataFrame;   (* UPLOAD_FOLDER, by file name *)
  heap : list DataFrame            (* frame objects, by reference *)
}.

Definition M (A : Type) : Type := world -> result A * world.

#[global] Instance M_ret : MRet M := fun A a w => (Ok a, w).
#[global] Instance M_bind : MBind M := fun A B f m w =>
  match m w with
  | (Ok a, w') => f a w'
  | (Raise e, w') => (Raise e, w')
  end.

Definition lift {A} (r : result A) : M A := fun w => (r, w).

(** A new frame object; its reference is returned. *)
Definition new_frame (df : DataFrame) : M nat := fun w =>
  (Ok (length (heap w)), {| files := files w; heap := heap w ++ [df] |}).

Definition deref (r : nat) : M DataFrame := fun w => (Ok (heap w !!! r), w).

Definition store (r : nat) (df : DataFrame) : M unit := fun w =>
  (Ok tt, {| files := files w; heap := <[r := df]> (heap w) |}).

(** [os.path.exists(os.path.join(UPLOAD_FOLDER, filename))], for a
    [plain_name]: the upload folder holds the files of the map and nothing
    else. *)
Definition os_path_exists (filename : string) : M bool := fun w =>
  (Ok (bool_decide (is_Some (files w !! filename))), w).

(** [pd.read_csv(path)] *)
Definition read_csv (filename : string) : M nat := fun w =>
  match files w !! filename with
  | Some df => new_frame df w
  | None => (Raise (FileNotFoundError filename), w)
  end.

(** [df.to_csv(path, index=False)] *)
Definition to_csv (r : nat) (filename : string) : M unit := fun w =>
  (Ok tt, {| files := <[filename := heap w !!! r]> (files w); heap := heap w |}).

(** [df.copy()]: a new object with its own data. *)
Definition copy (r : nat) : M nat :=
  df ← deref r; new_frame df.

(** [df[col].fillna(value, inplace=True)]: the column selected from the
    object behind [r] is filled in place. *)
Definition fillna_inplace (r : nat) (col : string) (value : float) : M unit :=
  df ← deref r;
  s ← lift (getitem df col);
  store r (update_column df col (fillna value s)).

(** The body of the imputation loop of [process_file] (app.py:150-154). *)
Definition impute_step (processed_df : nat) (col : string) : M unit :=
  df ← deref processed_df;
  s ← lift (getitem df col);
  if mask_any (isna s) then
    mean_value ← lift (Series_mean s);
    if negb (is_nan mean_value) then fillna_inplace processed_df col mean_value
    else mret tt
  else mret tt.

Fixpoint impute_loop (processed_df : nat) (cols : list string) : M unit :=
  match cols with
  | [] => mret tt
  | col :: cols' => impute_step processed_df col;; impute_loop processed_df cols'
  end.

Record success := {
  resp_stats : stats;
  preview_data : list (gmap string json_value);
  imputation_flags : gmap string (list bool);
  processed_filename : string;
  resp_numeric_columns : list string
}.

Inductive response :=
| BadRequest (error : string)          (* 400 *)
| NotFound (error : string)            (* 404 *)
| ServerError (e : exn)                (* 500, 'Processing failed: ...' *)
| Success (body : success).            (* 200 *)

(** What follows the imputation loop (app.py:156-195): report, saved file,
    preview, flags. *)
Definition finish (filename : string) (original_df processed_df : nat)
    (numeric_columns : list string) : M response :=
  original ← deref original_df;
  processed ← deref processed_df;
  stats ← lift (calculate_imputation_stats original processed numeric_columns);
  let processed_filename := "processed_" +:+ filename in
  to_csv processed_df processed_filename;;
  processed ← deref processed_df;
  let preview_df := head 50 processed in
  preview_data ← lift (make_preview_data preview_df);
  original ← deref original_df;
  imputation_flags ← lift (flags_loop 50 original numeric_columns ∅);
  mret (Success {| resp_stats := stats;
                   preview_data := preview_data;
                   imputation_flags := imputation_flags;
                   processed_filename := processed_filename;
                   resp_numeric_columns := numeric_columns |}).

(** The [try] block of [process_file] (app.py:127-195); [data] is the
    [filename] entry of the JSON body, if any. *)
Definition process_file_try (data : option string) : M response :=
  match data with
  | None => mret (BadRequest "Filename not provided")
  | Some filename =>
      found ← os_path_exists filename;
      if negb found then mret (NotFound "File not found")
      else
        original_df ← read_csv filename;
        processed_df ← copy original_df;
        processed ← deref processed_df;
        let numeric_columns := select_dtypes_number processed in
        match numeric_columns with
        | [] => mret (BadRequest "No numeric columns found for imputation")
        | _ =>
            impute_loop processed_df numeric_columns;;
            finish filename original_df processed_df numeric_columns
        end
  end.

Definition process_file (data : option string) (w : world) : response * world :=
  match process_file_try data w with
  | (Ok r, w') => (r, w')
  | (Raise e, w') => (ServerError e, w')
  end.

(** ** The other routes *)

(** Text operations of Python's [str] used by the routes.  Strings are
    sequences of bytes; [lower] acts on the ASCII letters, and no other
    character lowers to one of [c], [s], [v]. *)
Definition ascii_lower (a : Ascii.ascii) : Ascii.ascii :=
  let n := Ascii.nat_of_ascii a in
  if ((65 <=? n) && (n <=? 90))%nat then Ascii.ascii_of_nat (n + 32) else a.

Fixpoint lower (s : string) : string :=
  match s with
  | EmptyString => EmptyString
  | String a s' => String (ascii_lower a) (lower s')
  end.

(** The characters ['.'] and ['_']. *)
Definition dot : Ascii.ascii := Ascii.ascii_of_nat 46.
Definition underscore : Ascii.ascii := Ascii.ascii_of_nat 95.

(** [c in s] *)
Fixpoint occurs (c : Ascii.ascii) (s : string) : bool :=
  match s with
  | EmptyString => false
  | String a s' => Ascii.eqb a c || occurs c s'
  end.

(** [s.rsplit(c, 1)[1]] when [c in s]: what follows the last [c]. *)
Fixpoint after_last (c : Ascii.ascii) (s : string) : option string :=
  match s with
  | EmptyString => None
  | String a s' =>
      match after_last c s' with
      | Some t => Some t
      | None => if Ascii.eqb a c then Some s' else None
      end
  end.

(** [s.split(c, 1)[1]]: what follows the first [c]; [None] stands for the
    [IndexError] of indexing the one-element list. *)
Fixpoint after_first (c : Ascii.ascii) (s : string) : option string :=
  match s with
  | EmptyString => None
  | String a s' => if Ascii.eqb a c then Some s' else after_first c s'
  end.

(** [old in s] for a non-empty [old]. *)
Fixpoint contains (old s : string) : bool :=
  String.prefix old s
  || match s with
     | EmptyString => false
     | String _ s' => contains old s'
     end.

(** [s.replace(old, new)] for a non-empty [old]: the occurrences of [old]
    are replaced from left to right, without overlap.  [skip] counts the
    characters of a matched occurrence still to be passed over. *)
Fixpoint replace_from (old new : string) (skip : nat) (s : string) : string :=
  match s with
  | EmptyString => EmptyString
  | String a s' =>
      match skip with
      | S k => replace_from old new k s'
      | O =>
          if String.prefix old s
          then new +:+ replace_from old new (String.length old - 1) s'
          else String a (replace_from old new 0 s')
      end
  end.

Definition replace (old new s : string) : string := replace_from old new 0 s.



(** [allowed_file(filename)] (app.py:23-25). *)
Definition allowed_file (filename : string) : bool :=
  occurs dot filename
  && match after_last dot filename with
     | Some ext => String.eqb (lower ext) "csv"
     | None => false
     end.

(** What the routes other than [process_file] answer.  The 500 answers
    carry the exception caught by the route. *)
Inductive failure :=
| Exn (e : exn)
| IndexError            (* list index out of range *)
| AttributeError.       (* 'NoneType' object has no attribute 'get' *)

Inductive reply (A : Type) :=
| R200 (body : A)
| R400 (error : string)
| R404 (error : string)
| R500 (e : failure).
Arguments R200 {A} body.
Arguments R400 {A} error.
Arguments R404 {A} error.
Arguments R500 {A} e.

(** [os.remove(path)] on the path of a [plain_name]. *)
Definition os_remove (filename : string) : M unit := fun w =>
  match files w !! filename with
  | Some _ => (Ok tt, {| files := delete filename (files w); heap := heap w |})
  | None => (Raise (FileNotFoundError filename), w)
  end.

(** *** [upload_file] (app.py:75-121) *)

(** The uploaded part of the request: its name, the size of its content,
    and what [pd.read_csv] makes of the content, a frame or the message of
    the exception it raises. *)
Record upload := {
  up_filename : string;
  up_size : nat;
  up_parse : DataFrame + string
}.

Record file_info := {
  info_filename : string;
  info_original_filename : string;
  info_rows : nat;
  info_columns : nat;
  info_column_names : list string;
  info_file_size : nat
}.

(** [secure_filename] is werkzeug's and [timestamp] the clock reading
    [str(int(pd.Timestamp.now().timestamp()))]; both are inputs here.
    [file.save] followed by [read_csv] stores the frame; when the content
    does not parse, the file just saved is removed again, together with
    whatever was stored under that name before. *)
Definition upload_file (secure_filename : string → string) (timestamp : string)
    (req : option upload) (w : world) : reply file_info * world :=
  match req with
  | None => (R400 "No file provided", w)
  | Some file =>
      if String.eqb (up_filename file) EmptyString then (R400 "No file selected", w)
      else if negb (allowed_file (up_filename file))
      then (R400 "Only CSV files are allowed", w)
      else
        let filename := timestamp +:+ "_" +:+ secure_filename (up_filename file) in
        match up_parse file with
        | inl content =>
            let w1 := {| files := <[filename := content]> (files w); heap := heap w |} in
            match (df ← read_csv filename; deref df) w1 with
            | (Ok df, w2) =>
                (R200 {| info_filename := filename;
                         info_original_filename := up_filename file;
                         info_rows := index_len df;
                         info_columns := length (columns df);
                         info_column_names := column_names df;
                         info_file_size := up_size file |}, w2)
            | (Raise e, w2) => (R500 (Exn e), w2)
            end
        | inr message =>
            (R400 ("Invalid CSV file: " +:+ message),
             {| files := delete filename (files w); heap := heap w |})
        end
  end.

(** *** [download_file] (app.py:200-217) *)

Record attachment := {
  sent : DataFrame;             (* the content of the file sent *)
  download_name : string
}.

Definition download_file (filename : string) (w : world) : reply attachment * world :=
  match files w !! filename with
  | None => (R404 "File not found", w)
  | Some content =>
      match after_first underscore (replace "processed_" EmptyString filename) with
      | Some name =>
          (R200 {| sent := content; download_name := "imputed_" +:+ name |}, w)
      | None => (R500 IndexError, w)
      end
  end.

(** *** [cleanup_files] (app.py:219-240) *)

Record cleanup_report := {
  cleaned_total : nat;          (* the count in 'Cleaned up N files' *)
  cleaned_files : list string
}.

(** The loop over [filenames]; [cleaned] is [cleaned_files] so far. *)
Fixpoint cleanup_loop (filenames : list string) (cleaned : list string)
  : M (list string) :=
  match filenames with
  | [] => mret cleaned
  | filename :: rest =>
      found ← os_path_exists filename;
      if (found : bool)
      then os_remove filename;; cleanup_loop rest (cleaned ++ [filename])
      else cleanup_loop rest cleaned
  end.

(** [data] is the JSON body: [None] for [null], on which [data.get]
    raises; [Some None] for an object without [filenames], read as [[]]. *)
Definition cleanup_files (data : option (option (list string))) (w : world)
  : reply cleanup_report * world :=
  match data with
  | None => (R500 AttributeError, w)
  | Some entry =>
      let filenames := default [] entry in
      match cleanup_loop filenames [] w with
      | (Ok cleaned, w') =>
          (R200 {| cleaned_total := length cleaned; cleaned_files := cleaned |}, w')
      | (Raise e, w') => (R500 (Exn e), w')
      end
  end.

(** ** Functional reading of the imputation loop *)

(** What one iteration of the loop does to the frame behind
    [processed_df]. *)
Definition impute_frame_step (df : DataFrame) (col : string) : result DataFrame :=
  s ← getitem df col;
  if mask_any (isna s) then
    mean_value ← Series_mean s;
    if negb (is_nan mean_value) then Ok (update_column df col (fillna mean_value s))
    else Ok df
  else Ok df.

Fixpoint impute_frame_loop (df : DataFrame) (cols : list string) : result DataFrame :=
  match cols with
  | [] => Ok df
  | col :: cols' => df' ← impute_frame_step df col; impute_frame_loop df' cols'
  end.

(** The outcome of an iteration on the column itself. *)
Definition impute_series (s : Series) : Series :=
  if mask_any (isna s) then
    match Series_mean s with
    | Ok mean_value => if negb (is_nan mean_value) then fillna mean_value s else s
    | Raise _ => s
    end
  else s.

Definition impute_columns (l : list (string * Series)) : list (string * Series) :=
  map (fun c => if is_number (Series_dtype (snd c)) then (fst c, impute_series (snd c)) else c) l.

(** The processed frame: numeric columns imputed, the others as they were. *)
Definition imputed (df : DataFrame) : DataFrame :=
  {| index_len := index_len df; columns := impute_columns (columns df) |}.

(** ** The specification's vocabulary *)

(** The non-missing values of a numeric column, as doubles. *)
Definition nonmissing_values (s : Series) : list float :=
  match s with
  | Int64Series l => map Z2float l
  | Float64Series l => filter (fun f => is_nan f = false) l
  | _ => []
  end.


(** The mean as the report gives it: [0.0] whenever the double-precision
    mean is NaN. *)
Definition reported_mean (vals : list float) : float :=
  if is_nan (mean_of vals) then zero else mean_of vals.

(** A cell that holds a number. *)
Definition is_number_cell (v : scalar) : bool :=
  match v with
  | NpInt64 _ | PyInt _ => true
  | NpFloat64 f | PyFloat f => negb (is_nan f)
  | _ => false
  end.

(** The cells of a column, read in its own dtype. *)
Definition cells (s : Series) : list scalar := astype (Series_dtype s) s.

(** Numeric as the specification words it: at least one cell is a number
    and every non-missing cell is one. *)
Definition spec_numeric (s : Series) : bool :=
  existsb is_number_cell (cells s)
  && forallb (fun v => pd_isna v || is_number_cell v) (cells s).

(** Text columns as [read_csv] infers them: strings and NaN markers. *)
Definition text_or_nan (v : scalar) : bool :=
  match v with
  | PyStr _ => true
  | PyFloat f => is_nan f
  | _ => false
  end.

Definition inferred (s : Series) : bool :=
  match s with
  | ObjectSeries l => forallb text_or_nan l
  | _ => true
  end.

(** The number of missing cells of a column of [df]. *)
Definition missing_count (df : DataFrame) (col : string) : nat :=
  match getitem df col with
  | Ok s => mask_sum (isna s)
  | Raise _ => 0%nat
  end.

(** [col] names a numeric column of [df]. *)
Definition numeric_in (df : DataFrame) (col : string) : bool :=
  match getitem df col with
  | Ok s => is_number (Series_dtype s)
  | Raise _ => false
  end.

(** [col] has no missing cell in [df], or a mean that is a number: the
    imputation loop leaves no missing cell in it. *)
Definition fillable (df : DataFrame) (col : string) : bool :=
  match getitem df col with
  | Ok s => negb (mask_any (isna s)) || negb (is_nan (mean_of (nonmissing_values s)))
  | Raise _ => true
  end.

(** ** Sample data *)

(** [age = [25, missing, 35, missing]], the scenario of the specification. *)
Definition age_frame : DataFrame :=
  {| index_len := 4;
     columns := [("age", Float64Series [25; nan; 35; nan]%float)] |}.

Definition age_world : world :=
  {| files := {["t.csv" := age_frame]}; heap := [] |}.

(** [id,x] with every [x] empty: [read_csv] types [x] as [float64]. *)
Definition gap_frame : DataFrame :=
  {| index_len := 2;
     columns := [("id", Int64Series [1; 2]); ("x", Float64Series [nan; nan])] |}.

Definition gap_world : world :=
  {| files := {["gap.csv" := gap_frame]}; heap := [] |}.



(** [name,x] with names and every [x] empty: no column holds a number. *)
Definition names_gap_frame : DataFrame :=
  {| index_len := 2;
     columns := [("name", ObjectSeries [PyStr "Ann"; PyStr "Bob"]);
                 ("x", Float64Series [nan; nan])] |}.

Definition names_gap_world : world :=
  {| files := {["nn.csv" := names_gap_frame]}; heap := [] |}.

(** Text only. *)
Definition text_frame : DataFrame :=
  {| index_len := 2;
     columns := [("name", ObjectSeries [PyStr "Ann"; PyFloat nan]);
                 ("city", ObjectSeries [PyStr "Oslo"; PyStr "Rome"])] |}.

Definition text_world : world :=
  {| files := {["text.csv" := text_frame]}; heap := [] |}.

(** An integer column next to a floating-point one, and next to text. *)
Definition id_score_frame : DataFrame :=
  {| index_len := 2;
     columns := [("id", Int64Series [1; 2]);
                 ("score", Float64Series [1.5; nan]%float)] |}.

Definition id_score_world : world :=
  {| files := {["scores.csv" := id_score_frame]}; heap := [] |}.

Definition people_frame : DataFrame :=
  {| index_len := 2;
     columns := [("name", ObjectSeries [PyStr "Ann"; PyStr "Bob"]);
                 ("age", Int64Series [25; 31]);
                 ("height", Float64Series [1.5; 1.75]%float)] |}.

Definition people_world : world :=
  {| files := {["people.csv" := people_frame]}; heap := [] |}.

(** Two uploads: a table under a name in capitals, and bytes that do not
    parse. *)
Definition age_upload : upload :=
  {| up_filename := "Ages.CSV"; up_size := 21; up_parse := inl age_frame |}.

Definition bad_upload : upload :=
  {| up_filename := "bad.csv"; up_size := 0;
     up_parse := inr "No columns to parse from file" |}.

(** Ten rows, two numeric columns, five missing cells in all. *)
Definition ten_rows_frame : DataFrame :=
  {| index_len := 10;
     columns :=
       [("a", Float64Series [1; nan; 3; 4; nan; 6; 7; 8; 9; 10]%float);
        ("b", Float64Series [nan; 2; 3; nan; 5; 6; 7; 8; nan; 10]%float)] |}.

(** Ten rows, one numeric column, nothing missing. *)
Definition ten_complete_frame : DataFrame :=
  {| index_len := 10; columns := [("a", Int64Series [1; 2; 3; 4; 5; 6; 7; 8; 9; 10])] |}.

(** * Properties *)

(** ** Association lists *)

Lemma assoc_Some_elem_of {A} key (l : list (string * A)) v :
  assoc key l = Some v → (key, v) ∈ l.
Proof.
  induction l as [|[k x] l IH]; simpl; [done|].
  destruct (String.eqb_spec k key) as [->|Hne].
  - intros [= ->]. left.
  - intros H. right. auto.
Qed.

Lemma assoc_None_not_elem_of {A} key (l : list (string * A)) :
  assoc key l = None ↔ key ∉ map fst l.
Proof.
  induction l as [|[k x] l IH]; simpl.
  - split; [intros _; apply not_elem_of_nil | done].
  - destruct (String.eqb_spec k key) as [->|Hne].
    + split; [done|]. intros H. exfalso. apply H. left.
    + rewrite IH, not_elem_of_cons. split; [by intros ?; split | by intros [_ ?]].
Qed.

Lemma assoc_elem_of {A} key (l : list (string * A)) v :
  NoDup (map fst l) → (key, v) ∈ l → assoc key l = Some v.
Proof.
  induction l as [|[k x] l IH]; simpl; intros Hnd Hin.
  - by apply elem_of_nil in Hin.
  - apply NoDup_cons in Hnd as [Hk Hnd].
    apply elem_of_cons in Hin as [[= -> ->]|Hin].
    + by rewrite String.eqb_refl.
    + destruct (String.eqb_spec k key) as [->|Hne]; [|auto].
      exfalso. apply Hk. apply list_elem_of_fmap. by exists (key, v).
Qed.

Lemma assoc_app_r {A} key (pre l : list (string * A)) :
  key ∉ map fst pre → assoc key (pre ++ l) = assoc key l.
Proof.
  induction pre as [|[k x] pre IH]; simpl; [done|].
  intros H. apply not_elem_of_cons in H as [Hne H].
  destruct (String.eqb_spec k key) as [->|_]; [done | auto].
Qed.

Lemma replace_column_app_r col s pre l :
  col ∉ map fst pre → replace_column col s (pre ++ l) = pre ++ replace_column col s l.
Proof.
  induction pre as [|[k x] pre IH]; simpl; [done|].
  intros H. apply not_elem_of_cons in H as [Hne H].
  destruct (String.eqb_spec k col) as [->|_]; [done|]. by rewrite IH.
Qed.

(** ** The imputation loop *)

Lemma numeric_Series_mean s :
  is_number (Series_dtype s) = true → ∃ m, Series_mean s = Ok m.
Proof. destruct s; simpl; intros H; try discriminate; eauto. Qed.

Lemma impute_frame_step_numeric n pre k s t :
  k ∉ map fst pre →
  is_number (Series_dtype s) = true →
  impute_frame_step {| index_len := n; columns := pre ++ (k, s) :: t |} k
  = Ok {| index_len := n; columns := pre ++ (k, impute_series s) :: t |}.
Proof.
  intros Hk Hnum. unfold impute_frame_step, getitem, impute_series; simpl.
  rewrite assoc_app_r by done. simpl. rewrite String.eqb_refl. simpl.
  destruct (mask_any (isna s)); [|done].
  destruct (numeric_Series_mean s Hnum) as [m ->]. simpl.
  destruct (is_nan m); simpl; [done|].
  unfold update_column; simpl. rewrite replace_column_app_r by done.
  simpl. by rewrite String.eqb_refl.
Qed.

Lemma impute_frame_loop_app n todo : ∀ pre,
  NoDup (map fst (pre ++ todo)) →
  impute_frame_loop {| index_len := n; columns := pre ++ todo |}
    (map fst (filter (fun c => is_number (Series_dtype (snd c)) = true) todo))
  = Ok {| index_len := n; columns := pre ++ impute_columns todo |}.
Proof.
  induction todo as [|[k s] t IH]; intros pre Hnd; [done|].
  assert (Hk : k ∉ map fst pre).
  { rewrite map_app in Hnd. apply NoDup_app in Hnd as (_ & Hd & _).
    intros Hin. apply (Hd k Hin). left. }
  assert (Hnd' : ∀ s', NoDup (map fst ((pre ++ [(k, s')]) ++ t))).
  { intros s'. rewrite <- app_assoc. simpl.
    rewrite map_app in *. exact Hnd. }
  rewrite filter_cons. simpl. destruct (is_number (Series_dtype s)) eqn:Hnum.
  - rewrite decide_True by done. simpl.
    rewrite impute_frame_step_numeric by done. simpl.
    specialize (IH (pre ++ [(k, impute_series s)]) (Hnd' _)).
    rewrite <- !app_assoc in IH. exact IH.
  - rewrite decide_False by done.
    specialize (IH (pre ++ [(k, s)]) (Hnd' _)).
    rewrite <- !app_assoc in IH. exact IH.
Qed.

(** On a frame with unique labels the loop over the numeric columns
    computes [imputed]. *)
Lemma impute_frame_loop_imputed df :
  NoDup (column_names df) →
  impute_frame_loop df (select_dtypes_number df) = Ok (imputed df).
Proof.
  intros Hnd. destruct df as [n cols].
  exact (impute_frame_loop_app n cols [] Hnd).
Qed.

Lemma world_insert_id w r df :
  heap w !! r = Some df →
  {| files := files w; heap := <[r := df]> (heap w) |} = w.
Proof. intros H. destruct w as [f h]; simpl in *. by rewrite list_insert_id. Qed.

(** An iteration on the heap is the functional step on the object behind
    [r]; nothing else is touched, also when the step raises. *)
Lemma impute_step_heap r col w df :
  heap w !! r = Some df →
  impute_step r col w =
    match impute_frame_step df col with
    | Ok df' => (Ok tt, {| files := files w; heap := <[r := df']> (heap w) |})
    | Raise e => (Raise e, w)
    end.
Proof.
  intros Hr. unfold impute_step, impute_frame_step, deref, lift, fillna_inplace.
  unfold mbind, M_bind, result_bind, mret, M_ret, deref, lift, store; simpl.
  rewrite (list_lookup_total_correct _ _ _ Hr).
  destruct (getitem df col) as [s|e] eqn:Hg; simpl; [|done].
  destruct (mask_any (isna s)); simpl; [|by rewrite world_insert_id].
  destruct (Series_mean s) as [m|e]; simpl; [|done].
  destruct (is_nan m); simpl; [by rewrite world_insert_id|].
  by rewrite (list_lookup_total_correct _ _ _ Hr), Hg.
Qed.

Lemma impute_loop_heap r cols : ∀ w df df',
  heap w !! r = Some df →
  impute_frame_loop df cols = Ok df' →
  impute_loop r cols w
  = (Ok tt, {| files := files w; heap := <[r := df']> (heap w) |}).
Proof.
  induction cols as [|col cols IH]; simpl; intros w df df' Hr Hloop.
  - injection Hloop as <-. unfold mret, M_ret. by rewrite world_insert_id.
  - unfold mbind, M_bind at 1. rewrite (impute_step_heap _ _ _ _ Hr).
    destruct (impute_frame_step df col) as [df1|e]; simpl in *; [|done].
    erewrite IH; [|simpl; apply list_lookup_insert_eq; by eapply lookup_lt_Some|done].
    simpl. by rewrite list_insert_insert_eq.
Qed.

(** Whatever the loop does, it only ever writes the object behind [r]. *)
Lemma impute_loop_frame r cols : ∀ w df,
  heap w !! r = Some df →
  ∃ df', (impute_loop r cols w).2
         = {| files := files w; heap := <[r := df']> (heap w) |}.
Proof.
  induction cols as [|col cols IH]; simpl; intros w df Hr.
  - exists df. unfold mret, M_ret. simpl. by rewrite world_insert_id.
  - unfold mbind, M_bind at 1. rewrite (impute_step_heap _ _ _ _ Hr).
    destruct (impute_frame_step df col) as [df1|e]; simpl.
    + edestruct (IH {| files := files w; heap := <[r := df1]> (heap w) |} df1)
        as [df' Hdf'].
      { simpl. apply list_lookup_insert_eq. by eapply lookup_lt_Some. }
      exists df'. rewrite Hdf'. simpl. by rewrite list_insert_insert_eq.
    + exists df. by rewrite world_insert_id.
Qed.

(** ** The report *)

Lemma numeric_mean_nonmissing s :
  is_number (Series_dtype s) = true →
  Series_mean s = Ok (mean_of (nonmissing_values s)).
Proof. destruct s; simpl; intros H; try discriminate; done. Qed.

Lemma stats_step_numeric df means counts total col s :
  getitem df col = Ok s →
  is_number (Series_dtype s) = true →
  stats_step df (means, counts, total) col
  = Ok (<[col := reported_mean (nonmissing_values s)]> means,
        <[col := mask_sum (isna s)]> counts,
        (total + mask_sum (isna s))%nat).
Proof.
  intros Hg Hnum. unfold stats_step. rewrite Hg. simpl.
  rewrite (numeric_mean_nonmissing s Hnum). simpl.
  unfold reported_mean. by destruct (is_nan (mean_of (nonmissing_values s))).
Qed.

Lemma stats_loop_spec df cols : ∀ means counts total,
  (∀ col, col ∈ cols → ∃ s, getitem df col = Ok s ∧ is_number (Series_dtype s) = true) →
  ∃ means' counts',
    stats_loop df cols (means, counts, total)
    = Ok (means', counts', (total + sum_list (map (missing_count df) cols))%nat)
    ∧ (∀ col s, col ∈ cols → getitem df col = Ok s →
         means' !! col = Some (reported_mean (nonmissing_values s))
         ∧ counts' !! col = Some (mask_sum (isna s)))
    ∧ (∀ col, col ∉ cols → means' !! col = means !! col ∧ counts' !! col = counts !! col).
Proof.
  induction cols as [|c cols IH]; intros means counts total Hcols.
  - exists means, counts. simpl. rewrite Nat.add_0_r. split; [done|].
    split; [|done]. intros col s Hin. by apply elem_of_nil in Hin.
  - destruct (Hcols c) as (s & Hg & Hnum); [left|].
    cbn [stats_loop]. rewrite (stats_step_numeric _ _ _ _ _ _ Hg Hnum).
    cbn [mbind result_bind].
    edestruct IH as (means' & counts' & Hloop & Hin & Hout).
    { intros col Hcol. apply Hcols. by right. }
    exists means', counts'. rewrite Hloop. split.
    { cbn [map sum_list]. unfold missing_count at 2. rewrite Hg.
      by rewrite Nat.add_assoc. }
    split.
    + intros col s' Hcol Hg'. destruct (decide (col ∈ cols)) as [Hc|Hc]; [by apply Hin|].
      apply elem_of_cons in Hcol as [->|Hcol]; [|done].
      rewrite Hg in Hg'. injection Hg' as <-.
      destruct (Hout c Hc) as [-> ->]. by rewrite !lookup_insert_eq.
    + intros col Hcol. apply not_elem_of_cons in Hcol as [Hne Hcol].
      destruct (Hout col Hcol) as [-> ->]. by rewrite !lookup_insert_ne.
Qed.

(** The numeric columns of a frame with unique labels can be read back and
    are numeric. *)
Lemma select_dtypes_number_getitem df col :
  NoDup (column_names df) →
  col ∈ select_dtypes_number df ↔
  ∃ s, getitem df col = Ok s ∧ is_number (Series_dtype s) = true.
Proof.
  intros Hnd. unfold select_dtypes_number, getitem. split.
  - intros Hin. apply list_elem_of_fmap in Hin as ([k s] & -> & Hin).
    apply list_elem_of_filter in Hin as [Hnum Hin]. simpl in *.
    exists s. by rewrite (assoc_elem_of k (columns df) s Hnd Hin).
  - intros (s & Hg & Hnum). destruct (assoc col (columns df)) as [s'|] eqn:Ha; [|done].
    injection Hg as ->. apply assoc_Some_elem_of in Ha.
    apply list_elem_of_fmap. exists (col, s). split; [done|].
    by apply list_elem_of_filter.
Qed.

(** The report on columns that are numeric columns of the original. *)
Lemma stats_spec original processed cols :
  (∀ col, col ∈ cols →
     ∃ s, getitem original col = Ok s ∧ is_number (Series_dtype s) = true) →
  ∃ st, calculate_imputation_stats original processed cols = Ok st
    ∧ total_rows st = index_len original
    ∧ total_columns st = length (columns original)
    ∧ numeric_columns st = length cols
    ∧ total_imputations st = sum_list (map (missing_count original) cols)
    ∧ (∀ col s, col ∈ cols → getitem original col = Ok s →
         column_means st !! col = Some (reported_mean (nonmissing_values s))
         ∧ imputed_counts st !! col = Some (mask_sum (isna s)))
    ∧ missing_data_rate st =
        (if (0 <? Z.of_nat (total_rows st * numeric_columns st))
         then match int_true_div (Z.of_nat (total_imputations st))
                      (Z.of_nat (total_rows st * numeric_columns st)) with
              | Ok q => py_round (PrimFloat.mul q (Z2float 100)) 2
              | Raise _ => nan
              end
         else zero).
Proof.
  intros Hcols. unfold calculate_imputation_stats.
  destruct (stats_loop_spec original cols ∅ ∅ 0%nat Hcols)
    as (means & counts & -> & Hin & _).
  cbn [mbind result_bind Nat.add].
  set (ncells := Z.of_nat (index_len original * length cols)).
  destruct (0 <? ncells) eqn:Hpos.
  - assert (Hne : (ncells =? 0) = false).
    { apply Z.eqb_neq. apply Z.ltb_lt in Hpos. lia. }
    unfold int_true_div. rewrite Hne. cbn [mbind result_bind].
    eexists. split; [done|]. cbn. fold ncells. by rewrite Hpos, Hne.
  - eexists. split; [done|]. cbn. fold ncells. by rewrite Hpos.
Qed.

(** ** Preview and flags *)

Lemma row_dict_loop_ok row cols : ∀ row_dict,
  (∀ col, col ∈ cols → col ∈ map fst row) →
  ∃ row_dict', row_dict_loop row cols row_dict = Ok row_dict'.
Proof.
  induction cols as [|c cols IH]; intros d Hcols; simpl; [eauto|].
  unfold row_getitem. destruct (assoc c row) as [v|] eqn:Ha.
  - simpl. apply IH. intros col Hcol. apply Hcols. by right.
  - apply assoc_None_not_elem_of in Ha. destruct Ha. apply Hcols. left.
Qed.

Lemma preview_loop_ok cols rows :
  (∀ row, row ∈ rows → map fst row = cols) →
  ∃ out, preview_loop cols rows = Ok out ∧ length out = length rows.
Proof.
  induction rows as [|row rows IH]; intros Hrows; simpl; [by eexists|].
  destruct (row_dict_loop_ok row cols ∅) as [d ->].
  { intros col. rewrite (Hrows row); [done | left]. }
  destruct IH as (out & -> & Hlen).
  { intros r Hr. apply Hrows. by right. }
  simpl. eexists. split; [done|]. simpl. by rewrite Hlen.
Qed.

Lemma iterrows_length df : length (iterrows df) = index_len df.
Proof. unfold iterrows. by rewrite length_map, length_seq. Qed.

Lemma iterrows_names df row : row ∈ iterrows df → map fst row = column_names df.
Proof.
  unfold iterrows. intros Hin. apply list_elem_of_fmap in Hin as (k & -> & _).
  unfold column_names. rewrite map_map. by apply map_ext.
Qed.

(** The preview never fails and has one entry per row of [preview_df]. *)
Lemma make_preview_data_ok preview_df :
  ∃ rows, make_preview_data preview_df = Ok rows
          ∧ length rows = index_len preview_df.
Proof.
  unfold make_preview_data.
  destruct (preview_loop_ok (column_names preview_df) (iterrows preview_df))
    as (out & Hout & Hlen).
  { apply iterrows_names. }
  exists out. by rewrite Hout, Hlen, iterrows_length.
Qed.

Lemma flags_loop_spec limit df cols : ∀ flags,
  (∀ col, col ∈ cols → ∃ s, getitem df col = Ok s) →
  ∃ flags', flags_loop limit df cols flags = Ok flags'
    ∧ (∀ col s, col ∈ cols → getitem df col = Ok s →
         flags' !! col = Some (take limit (isna s)))
    ∧ (∀ col, col ∉ cols → flags' !! col = flags !! col).
Proof.
  induction cols as [|c cols IH]; intros flags Hcols.
  - exists flags. split; [done|]. split; [|done].
    intros col s Hin. by apply elem_of_nil in Hin.
  - destruct (Hcols c) as [s Hg]; [left|].
    cbn [flags_loop]. rewrite Hg. cbn [mbind result_bind].
    edestruct IH as (flags' & Hloop & Hin & Hout).
    { intros col Hcol. apply Hcols. by right. }
    exists flags'. split; [exact Hloop|]. split.
    + intros col s' Hcol Hg'. destruct (decide (col ∈ cols)) as [Hc|Hc]; [by apply Hin|].
      apply elem_of_cons in Hcol as [->|Hcol]; [|done].
      rewrite Hg in Hg'. injection Hg' as <-.
      rewrite (Hout c Hc). by rewrite lookup_insert_eq.
    + intros col Hcol. apply not_elem_of_cons in Hcol as [Hne Hcol].
      rewrite (Hout col Hcol). by rewrite lookup_insert_ne.
Qed.

(** ** A successful request *)

Lemma heap_lookup_total_last (h : list DataFrame) df : (h ++ [df]) !!! length h = df.
Proof.
  apply list_lookup_total_correct. rewrite lookup_app_r by lia.
  by rewrite Nat.sub_diag.
Qed.

(** The reporting phase, step by step: the heap is only read, and the one
    file written is the processed one. *)
Lemma finish_eq filename r0 r1 cols w :
  finish filename r0 r1 cols w =
    match calculate_imputation_stats (heap w !!! r0) (heap w !!! r1) cols with
    | Raise e => (Raise e, w)
    | Ok st =>
        let w' := {| files := <["processed_" +:+ filename := heap w !!! r1]> (files w);
                     heap := heap w |} in
        match make_preview_data (head 50 (heap w !!! r1)) with
        | Raise e => (Raise e, w')
        | Ok rows =>
            match flags_loop 50 (heap w !!! r0) cols ∅ with
            | Raise e => (Raise e, w')
            | Ok flags =>
                (Ok (Success {| resp_stats := st;
                                preview_data := rows;
                                imputation_flags := flags;
                                processed_filename := "processed_" +:+ filename;
                                resp_numeric_columns := cols |}), w')
            end
        end
    end.
Proof.
  unfold finish, mbind, M_bind, deref, lift, to_csv, mret, M_ret. simpl.
  destruct (calculate_imputation_stats _ _ _); [|done]. simpl.
  destruct (make_preview_data _); [|done].
  by destruct (flags_loop _ _ _ _).
Qed.

(** Up to the test on [numeric_columns]: two new objects, the frame read
    from the file and its copy. *)
Lemma process_file_try_eq w filename df :
  files w !! filename = Some df →
  process_file_try (Some filename) w =
    let w2 := {| files := files w; heap := (heap w ++ [df]) ++ [df] |} in
    match select_dtypes_number df with
    | [] => (Ok (BadRequest "No numeric columns found for imputation"), w2)
    | _ =>
        (impute_loop (length (heap w ++ [df])) (select_dtypes_number df);;
         finish filename (length (heap w)) (length (heap w ++ [df]))
           (select_dtypes_number df)) w2
    end.
Proof.
  intros Hfile. unfold process_file_try.
  unfold mbind at 1, M_bind at 1. unfold os_path_exists.
  rewrite Hfile. rewrite bool_decide_eq_true_2 by eauto. cbn [negb].
  unfold mbind at 1, M_bind at 1. unfold read_csv. cbn [files]. rewrite Hfile.
  unfold new_frame at 1. cbn [heap files].
  unfold mbind at 1, M_bind at 1. unfold copy, deref at 1.
  unfold mbind at 1, M_bind at 1. cbn [heap files].
  rewrite heap_lookup_total_last. unfold new_frame at 1. cbn [heap files].
  unfold mbind at 1, M_bind at 1. unfold deref at 1. cbn [heap files].
  rewrite heap_lookup_total_last. cbn zeta.
  by destruct (select_dtypes_number df).
Qed.

(** The outcome of [process_file] on a stored frame with unique labels and
    at least one numeric column. *)
Lemma process_file_success w filename df :
  files w !! filename = Some df →
  NoDup (column_names df) →
  select_dtypes_number df ≠ [] →
  ∃ st rows flags,
    process_file (Some filename) w
    = (Success {| resp_stats := st;
                  preview_data := rows;
                  imputation_flags := flags;
                  processed_filename := "processed_" +:+ filename;
                  resp_numeric_columns := select_dtypes_number df |},
       {| files := <["processed_" +:+ filename := imputed df]> (files w);
          heap := heap w ++ [df; imputed df] |})
    ∧ calculate_imputation_stats df (imputed df) (select_dtypes_number df) = Ok st
    ∧ make_preview_data (head 50 (imputed df)) = Ok rows
    ∧ flags_loop 50 df (select_dtypes_number df) ∅ = Ok flags.
Proof.
  intros Hfile Hnd Hnum.
  destruct (stats_spec df (imputed df) (select_dtypes_number df)) as (st & Hst & _).
  { intros col. by apply select_dtypes_number_getitem. }
  destruct (make_preview_data_ok (head 50 (imputed df))) as (rows & Hrows & _).
  destruct (flags_loop_spec 50 df (select_dtypes_number df) ∅) as (flags & Hflags & _).
  { intros col Hcol. apply select_dtypes_number_getitem in Hcol as (s & ? & _); eauto. }
  exists st, rows, flags. split; [|done].
  unfold process_file. rewrite (process_file_try_eq _ _ _ Hfile). cbn zeta.
  destruct (select_dtypes_number df) as [|c cs] eqn:Hsel; [done|]. rewrite <- Hsel in *.
  unfold mbind at 1, M_bind at 1.
  erewrite impute_loop_heap; [| |by apply impute_frame_loop_imputed].
  2:{ cbn [heap]. rewrite lookup_app_r by done. by rewrite Nat.sub_diag. }
  cbn [heap files]. rewrite finish_eq. cbn [heap files].
  replace (length (heap w ++ [df])) with (length (heap w ++ [df]) + 0)%nat by lia.
  rewrite insert_app_r. cbn [insert list_insert].
  rewrite Nat.add_0_r, heap_lookup_total_last.
  assert (((heap w ++ [df]) ++ [imputed df]) !!! length (heap w) = df) as ->.
  { rewrite <- app_assoc. apply list_lookup_total_correct.
    rewrite lookup_app_r by lia. by rewrite Nat.sub_diag. }
  rewrite Hst. cbn zeta. rewrite Hrows, Hflags.
  by rewrite <- app_assoc.
Qed.

(** ** Well-formed frames and the processed frame *)

Lemma well_formed_NoDup df : well_formed df = true → NoDup (column_names df).
Proof.
  unfold well_formed. intros H. apply andb_true_iff in H as [H _].
  by apply bool_decide_eq_true in H.
Qed.

Lemma well_formed_len df col s :
  well_formed df = true → getitem df col = Ok s → Series_len s = index_len df.
Proof.
  unfold well_formed, getitem. intros H Hg.
  apply andb_true_iff in H as [_ H].
  destruct (assoc col (columns df)) as [s'|] eqn:Ha; [|done]. injection Hg as ->.
  apply assoc_Some_elem_of, list_elem_of_In in Ha.
  rewrite forallb_forall in H. specialize (H _ Ha). by apply Nat.eqb_eq in H.
Qed.

Lemma isna_length s : length (isna s) = Series_len s.
Proof. destruct s; simpl; by rewrite length_map. Qed.

Lemma mask_any_false_sum mask : mask_any mask = false → mask_sum mask = 0%nat.
Proof.
  unfold mask_any, mask_sum. induction mask as [|b mask IH]; simpl; [done|].
  intros H. apply orb_false_iff in H as [Hb H]. unfold id in Hb. subst b.
  rewrite filter_cons. rewrite decide_False by done. auto.
Qed.

Lemma fillna_no_missing_float m l :
  is_nan m = false →
  existsb id (map is_nan (map (fun f => if is_nan f then m else f) l)) = false.
Proof.
  intros Hm. induction l as [|f l IH]; simpl; [done|].
  rewrite IH, orb_false_r. unfold id. by destruct (is_nan f) eqn:Hf.
Qed.

Lemma mask_any_const_false {A} (l : list A) :
  mask_any (map (fun _ => false) l) = false.
Proof. unfold mask_any. induction l; simpl; [done|]. by rewrite IHl. Qed.

(** A numeric column whose mean is a number has no missing cell left; one
    whose mean is NaN is not touched. *)
Lemma impute_series_no_missing s :
  is_number (Series_dtype s) = true →
  is_nan (mean_of (nonmissing_values s)) = false →
  mask_any (isna (impute_series s)) = false.
Proof.
  intros Hnum Hm. unfold impute_series.
  destruct (mask_any (isna s)) eqn:Hany; [|done].
  rewrite (numeric_mean_nonmissing s Hnum), Hm. simpl.
  destruct s; simpl in *; try done.
  - by rewrite mask_any_const_false in Hany.
  - by apply fillna_no_missing_float.
Qed.

Lemma impute_series_nan_mean s :
  is_number (Series_dtype s) = true →
  is_nan (mean_of (nonmissing_values s)) = true →
  impute_series s = s.
Proof.
  intros Hnum Hm. unfold impute_series.
  rewrite (numeric_mean_nonmissing s Hnum), Hm. simpl.
  by destruct (mask_any (isna s)).
Qed.

Lemma impute_series_complete s : mask_any (isna s) = false → impute_series s = s.
Proof. intros H. unfold impute_series. by rewrite H. Qed.

Lemma impute_series_dtype s : Series_dtype (impute_series s) = Series_dtype s.
Proof.
  unfold impute_series. destruct (mask_any (isna s)); [|done].
  destruct (Series_mean s) as [m|]; [|done].
  destruct (negb (is_nan m)); [|done]. by destruct s.
Qed.

Lemma impute_series_len s : Series_len (impute_series s) = Series_len s.
Proof.
  unfold impute_series. destruct (mask_any (isna s)); [|done].
  destruct (Series_mean s) as [m|]; [|done].
  destruct (negb (is_nan m)); [|done]. destruct s; simpl; by rewrite ?length_map.
Qed.

(** Imputation is idempotent on a numeric column. *)
Lemma impute_series_idem s :
  is_number (Series_dtype s) = true →
  impute_series (impute_series s) = impute_series s.
Proof.
  intros Hnum.
  destruct (is_nan (mean_of (nonmissing_values s))) eqn:Hm.
  - by rewrite !(impute_series_nan_mean s Hnum Hm).
  - apply impute_series_complete. by apply impute_series_no_missing.
Qed.

Lemma imputed_names df : column_names (imputed df) = column_names df.
Proof.
  unfold column_names, imputed, impute_columns. simpl. rewrite map_map.
  apply map_ext. intros [k s]. simpl. by destruct (is_number (Series_dtype s)).
Qed.

Lemma assoc_impute_columns col l :
  assoc col (impute_columns l)
  = (fun s => if is_number (Series_dtype s) then impute_series s else s) <$> assoc col l.
Proof.
  induction l as [|[k s] l IH]; simpl; [done|].
  destruct (is_number (Series_dtype s)) eqn:Hnum; simpl;
    destruct (String.eqb k col); simpl; by rewrite ?Hnum.
Qed.

Lemma getitem_imputed df col s :
  getitem df col = Ok s →
  getitem (imputed df) col
  = Ok (if is_number (Series_dtype s) then impute_series s else s).
Proof.
  unfold getitem, imputed. simpl. rewrite assoc_impute_columns.
  destruct (assoc col (columns df)); [|done]. by intros [= ->].
Qed.

Lemma select_dtypes_number_imputed df :
  select_dtypes_number (imputed df) = select_dtypes_number df.
Proof.
  unfold select_dtypes_number, imputed, impute_columns. simpl.
  induction (columns df) as [|[k s] l IH]; simpl; [done|].
  rewrite !filter_cons. simpl.
  destruct (is_number (Series_dtype s)) eqn:Hnum; simpl.
  - rewrite impute_series_dtype, Hnum. rewrite !decide_True by done.
    simpl. by rewrite IH.
  - rewrite Hnum. by rewrite !decide_False by done.
Qed.

Lemma imputed_idem df : imputed (imputed df) = imputed df.
Proof.
  unfold imputed, impute_columns. simpl. f_equal. rewrite map_map.
  apply map_ext. intros [k s]. simpl.
  destruct (is_number (Series_dtype s)) eqn:Hnum; simpl; [|by rewrite Hnum].
  by rewrite impute_series_dtype, Hnum, impute_series_idem.
Qed.

(** The processed frame of a well-formed frame is well-formed. *)
Lemma well_formed_imputed df : well_formed (imputed df) = well_formed df.
Proof.
  unfold well_formed. rewrite imputed_names. f_equal.
  unfold imputed, impute_columns. simpl.
  induction (columns df) as [|[k s] l IH]; simpl; [done|]. rewrite IH. f_equal.
  destruct (is_number (Series_dtype s)); simpl; by rewrite ?impute_series_len.
Qed.

Lemma string_app_length s1 s2 :
  String.length (s1 +:+ s2) = (String.length s1 + String.length s2)%nat.
Proof. induction s1 as [|a s1 IH]; simpl; [done|]. by rewrite IH. Qed.

(** The processed file never overwrites the uploaded one. *)
Lemma processed_name_fresh filename : "processed_" +:+ filename ≠ filename.
Proof.
  intros H. apply (f_equal String.length) in H.
  rewrite string_app_length in H. simpl in H. lia.
Qed.

(** * The claims *)

(** ** C1: missing cells of numeric columns after imputation *)

(** C1, as stated, fails: the numeric column [x] of [gap_frame] has no
    value at all, its mean is NaN, the guard [if not pd.isna(mean_value)]
    skips [fillna], and the processed table still has both cells of [x]
    missing. *)
Lemma all_missing_column_stays_missing :
  ∃ body w' processed,
    process_file (Some "gap.csv") gap_world = (Success body, w')
    ∧ resp_numeric_columns body = ["id"; "x"]
    ∧ files w' !! processed_filename body = Some processed
    ∧ getitem processed "x" = Ok (Float64Series [nan; nan])
    ∧ isna (Float64Series [nan; nan]) = [true; true].
Proof.
  eexists _, _, _. split; [vm_compute; reflexivity|].
  split; [reflexivity|]. split; [vm_compute; reflexivity|].
  split; reflexivity.
Qed.

(** C1 (amended).  For every table [impute] accepts and every numeric
    column whose mean over the non-missing values is a number, the
    processed table has no missing cell in that column; a numeric column
    whose mean is NaN, such as an entirely missing one, is left as it was. *)
Theorem impute_fills_columns_with_a_mean w filename df col s :
  files w !! filename = Some df →
  well_formed df = true →
  getitem df col = Ok s →
  is_number (Series_dtype s) = true →
  ∃ body w' processed s',
    process_file (Some filename) w = (Success body, w')
    ∧ col ∈ resp_numeric_columns body
    ∧ files w' !! processed_filename body = Some processed
    ∧ getitem processed col = Ok s'
    ∧ (is_nan (mean_of (nonmissing_values s)) = false → mask_any (isna s') = false)
    ∧ (is_nan (mean_of (nonmissing_values s)) = true → s' = s).
Proof.
  intros Hfile Hwf Hg Hnum.
  pose proof (well_formed_NoDup df Hwf) as Hnd.
  assert (Hcol : col ∈ select_dtypes_number df).
  { apply select_dtypes_number_getitem; eauto. }
  destruct (process_file_success w filename df Hfile Hnd) as (st & rows & flags & -> & _).
  { intros H. rewrite H in Hcol. by apply elem_of_nil in Hcol. }
  eexists _, _, (imputed df), (impute_series s). split; [done|]. simpl.
  split; [done|]. split; [by rewrite lookup_insert_eq|].
  split; [by rewrite (getitem_imputed df col s Hg), Hnum|].
  split; [by apply impute_series_no_missing | by apply impute_series_nan_mean].
Qed.

Lemma impute_fills_columns_with_a_mean_witness :
  ∃ body w' processed s',
    process_file (Some "t.csv") age_world = (Success body, w')
    ∧ "age" ∈ resp_numeric_columns body
    ∧ files w' !! processed_filename body = Some processed
    ∧ getitem processed "age" = Ok s'
    ∧ (is_nan (mean_of (nonmissing_values (Float64Series [25; nan; 35; nan]%float))) = false
       → mask_any (isna s') = false)
    ∧ (is_nan (mean_of (nonmissing_values (Float64Series [25; nan; 35; nan]%float))) = true
       → s' = Float64Series [25; nan; 35; nan]%float).
Proof.
  apply (impute_fills_columns_with_a_mean age_world "t.csv" age_frame "age");
    reflexivity.
Defined.

(** The scenario of the specification, evaluated. *)
Example age_scenario :
  ∃ body w',
    process_file (Some "t.csv") age_world = (Success body, w')
    ∧ files w' !! "processed_t.csv"
      = Some {| index_len := 4;
                columns := [("age", Float64Series [25; 30; 35; 30]%float)] |}
    ∧ column_means (resp_stats body) !! "age" = Some 30%float
    ∧ imputed_counts (resp_stats body) !! "age" = Some 2%nat
    ∧ missing_data_rate (resp_stats body) = 50%float
    ∧ imputation_flags body !! "age" = Some [false; true; false; true].
Proof. eexists _, _. split; [vm_compute; reflexivity|]. repeat split. Qed.

(** ** C2: no numeric column *)

(** C2, as stated, fails: no column of [names_gap_frame] holds a number, so
    that the table has zero numeric columns in the sense of the
    specification, where an entirely missing column does not count; yet
    the request succeeds, reports on [x] and writes the processed file. *)
Lemma table_without_numbers_accepted :
  forallb (fun c => negb (spec_numeric (snd c))) (columns names_gap_frame) = true
  ∧ ∃ body w',
      process_file (Some "nn.csv") names_gap_world = (Success body, w')
      ∧ resp_numeric_columns body = ["x"]
      ∧ files w' !! "processed_nn.csv" = Some names_gap_frame.
Proof.
  split; [reflexivity|]. eexists _, _. split; [vm_compute; reflexivity|].
  split; [reflexivity | vm_compute; reflexivity].
Qed.

(** C2 (amended).  On a table without a column of integer or floating-point
    dtype the request fails with the "no numeric columns" error: no report
    is returned and no file is written. *)
Theorem no_numeric_columns_rejected w filename df :
  files w !! filename = Some df →
  select_dtypes_number df = [] →
  ∃ w', process_file (Some filename) w
        = (BadRequest "No numeric columns found for imputation", w')
        ∧ files w' = files w.
Proof.
  intros Hfile Hsel. unfold process_file.
  rewrite (process_file_try_eq _ _ _ Hfile), Hsel. cbn zeta.
  by eexists.
Qed.

Lemma no_numeric_columns_rejected_witness :
  ∃ w', process_file (Some "text.csv") text_world
        = (BadRequest "No numeric columns found for imputation", w')
        ∧ files w' = files text_world.
Proof.
  apply (no_numeric_columns_rejected text_world "text.csv" text_frame); reflexivity.
Defined.

(** ** C3: the reported means *)








(** ** C4: the missing-data rate *)

(** C4.  The rate of the report is [total_imputations / (total_rows *
    numeric_column_count) * 100] rounded to two decimals, and [0.0] when
    [total_rows] or [numeric_column_count] is zero; the division is never
    reached with a zero divisor, so the report is always produced. *)
Theorem missing_data_rate_formula original processed cols :
  forallb (numeric_in original) cols = true →
  ∃ st,
    calculate_imputation_stats original processed cols = Ok st
    ∧ total_rows st = index_len original
    ∧ numeric_columns st = length cols
    ∧ (total_rows st = 0%nat ∨ numeric_columns st = 0%nat →
       missing_data_rate st = zero)
    ∧ (total_rows st ≠ 0%nat → numeric_columns st ≠ 0%nat →
       ∃ q, int_true_div (Z.of_nat (total_imputations st))
                         (Z.of_nat (total_rows st * numeric_columns st)) = Ok q
            ∧ missing_data_rate st = py_round (PrimFloat.mul q (Z2float 100)) 2).
Proof.
  intros Hcols.
  destruct (stats_spec original processed cols)
    as (st & Hst & Hrows & _ & Hn & _ & _ & Hrate).
  { intros col Hcol. rewrite forallb_forall in Hcols.
    specialize (Hcols col (proj1 (list_elem_of_In _ _) Hcol)).
    unfold numeric_in in Hcols. destruct (getitem original col); [eauto | done]. }
  exists st. split; [done|]. split; [done|]. split; [done|]. split.
  - intros H0. rewrite Hrate.
    destruct (0 <? Z.of_nat (total_rows st * numeric_columns st)) eqn:Hpos; [|done].
    apply Z.ltb_lt in Hpos. destruct H0 as [H0|H0]; rewrite H0 in Hpos; lia.
  - intros Hr Hc. rewrite Hrate.
    destruct (0 <? Z.of_nat (total_rows st * numeric_columns st)) eqn:Hpos.
    + unfold int_true_div in *.
      destruct (Z.of_nat (total_rows st * numeric_columns st) =? 0) eqn:H0.
      { apply Z.eqb_eq in H0. apply Z.ltb_lt in Hpos. lia. }
      eauto.
    + apply Z.ltb_ge in Hpos. nia.
Qed.

Lemma missing_data_rate_formula_witness :
  ∃ st,
    calculate_imputation_stats age_frame age_frame ["age"] = Ok st
    ∧ total_rows st = 4%nat
    ∧ numeric_columns st = 1%nat
    ∧ missing_data_rate st = 50%float.
Proof.
  destruct (missing_data_rate_formula age_frame age_frame ["age"])
    as (st & Hst & Hrows & Hn & _ & Hrate); [reflexivity|].
  exists st. split; [exact Hst|]. split; [exact Hrows|]. split; [exact Hn|].
  vm_compute in Hst. injection Hst as <-. reflexivity.
Defined.

(** The two rate scenarios of the specification. *)
Example rate_five_of_twenty :
  missing_data_rate <$> (match calculate_imputation_stats ten_rows_frame ten_rows_frame
                                 ["a"; "b"] with Ok st => Some st | Raise _ => None end)
  = Some 25%float.
Proof. reflexivity. Qed.

Example rate_nothing_missing :
  missing_data_rate <$> (match calculate_imputation_stats ten_complete_frame
                                 ten_complete_frame ["a"] with
                         | Ok st => Some st | Raise _ => None end)
  = Some zero.
Proof. reflexivity. Qed.

(** [round] goes by the exact binary value, ties to even. *)
Example py_round_samples :
  py_round 0.125 2 = 0.12%float
  ∧ py_round 0.375 2 = 0.38%float
  ∧ py_round 12345678.125 2 = 12345678.12%float
  ∧ py_round 14.285714285714285 2 = 14.29%float.
Proof. repeat split. Qed.

(** ** C5: which columns are numeric *)

(** C5, as stated, fails: the column [x] of [gap_frame] is entirely
    missing, holds no number, and is selected as numeric all the same,
    because the selection goes by dtype. *)
Lemma all_missing_column_is_numeric :
  select_dtypes_number gap_frame = ["id"; "x"]
  ∧ getitem gap_frame "x" = Ok (Float64Series [nan; nan])
  ∧ isna (Float64Series [nan; nan]) = [true; true]
  ∧ spec_numeric (Float64Series [nan; nan]) = false.
Proof. repeat split. Qed.

Lemma text_or_nan_not_number l :
  forallb text_or_nan l = true → existsb is_number_cell l = false.
Proof.
  induction l as [|v l IH]; simpl; [done|].
  intros H. apply andb_true_iff in H as [Hv H]. rewrite (IH H), orb_false_r.
  destruct v; simpl in *; try done. by rewrite Hv.
Qed.

Lemma bool_cells_not_numbers l : existsb is_number_cell (map NpBool l) = false.
Proof. induction l; simpl; [done | auto]. Qed.

Lemma numeric_cells_are_numbers s :
  is_number (Series_dtype s) = true →
  forallb (fun v => pd_isna v || is_number_cell v) (cells s) = true.
Proof.
  destruct s as [l|l| |]; simpl; try done; intros _; unfold cells; simpl.
  - induction l; simpl; [done|]. by rewrite IHl.
  - induction l as [|f l IH]; simpl; [done|]. rewrite IH.
    by destruct (is_nan f).
Qed.

(** C5 (amended).  A column is classified as numeric if and only if its
    dtype is an integer or floating-point one.  Every non-missing cell of a
    numeric column is a number, and among the columns [read_csv] infers a
    column with at least one number and no non-missing cell that is not a
    number is numeric; but a numeric column need not hold any number: a
    floating-point column is numeric even when it is entirely missing. *)
Theorem numeric_classification df col s :
  well_formed df = true →
  getitem df col = Ok s →
  (col ∈ select_dtypes_number df ↔ is_number (Series_dtype s) = true)
  ∧ (col ∈ select_dtypes_number df →
     forallb (fun v => pd_isna v || is_number_cell v) (cells s) = true)
  ∧ (inferred s = true → spec_numeric s = true → col ∈ select_dtypes_number df)
  ∧ (Series_dtype s = float64 → col ∈ select_dtypes_number df).
Proof.
  intros Hwf Hg. pose proof (well_formed_NoDup df Hwf) as Hnd.
  assert (Hiff : col ∈ select_dtypes_number df ↔ is_number (Series_dtype s) = true).
  { rewrite (select_dtypes_number_getitem df col Hnd). split.
    - intros (s' & Hg' & Hnum). rewrite Hg in Hg'. by injection Hg' as <-.
    - eauto. }
  split; [exact Hiff|]. split; [|split].
  - intros Hcol. apply numeric_cells_are_numbers. by apply Hiff.
  - intros Hinf Hspec. apply Hiff. unfold spec_numeric in Hspec.
    apply andb_true_iff in Hspec as [Hex _].
    destruct s as [l|l|l|l]; simpl in *; try done.
    + unfold cells in Hex. simpl in Hex.
      by rewrite bool_cells_not_numbers in Hex.
    + unfold cells in Hex. simpl in Hex.
      by rewrite (text_or_nan_not_number l Hinf) in Hex.
  - intros Hd. apply Hiff. by rewrite Hd.
Qed.

Lemma numeric_classification_witness :
  ("x" ∈ select_dtypes_number gap_frame
   ↔ is_number (Series_dtype (Float64Series [nan; nan])) = true)
  ∧ "x" ∈ select_dtypes_number gap_frame.
Proof.
  destruct (numeric_classification gap_frame "x" (Float64Series [nan; nan]))
    as (Hiff & _ & _ & Hfloat); try reflexivity.
  split; [exact Hiff | by apply Hfloat].
Defined.

(** ** C6: columns without missing values *)

(** C6.  A numeric column without missing value is the same column in the
    processed table, and the report counts no imputation for it. *)
Theorem complete_column_untouched w filename df col s :
  files w !! filename = Some df →
  well_formed df = true →
  getitem df col = Ok s →
  is_number (Series_dtype s) = true →
  mask_any (isna s) = false →
  ∃ body w' processed,
    process_file (Some filename) w = (Success body, w')
    ∧ col ∈ resp_numeric_columns body
    ∧ files w' !! processed_filename body = Some processed
    ∧ getitem processed col = Ok s
    ∧ imputed_counts (resp_stats body) !! col = Some 0%nat.
Proof.
  intros Hfile Hwf Hg Hnum Hany.
  pose proof (well_formed_NoDup df Hwf) as Hnd.
  assert (Hcol : col ∈ select_dtypes_number df).
  { apply select_dtypes_number_getitem; eauto. }
  destruct (process_file_success w filename df Hfile Hnd)
    as (st & rows & flags & -> & Hst & _).
  { intros H. rewrite H in Hcol. by apply elem_of_nil in Hcol. }
  eexists _, _, (imputed df). split; [done|]. simpl. split; [done|].
  split; [by rewrite lookup_insert_eq|].
  split; [by rewrite (getitem_imputed df col s Hg), Hnum, impute_series_complete|].
  destruct (stats_spec df (imputed df) (select_dtypes_number df))
    as (st' & Hst' & _ & _ & _ & _ & Hcounts & _).
  { intros c. by apply select_dtypes_number_getitem. }
  rewrite Hst in Hst'. injection Hst' as <-.
  destruct (Hcounts col s Hcol Hg) as [_ ->]. by rewrite mask_any_false_sum.
Qed.

Lemma complete_column_untouched_witness :
  ∃ body w' processed,
    process_file (Some "scores.csv") id_score_world = (Success body, w')
    ∧ "id" ∈ resp_numeric_columns body
    ∧ files w' !! processed_filename body = Some processed
    ∧ getitem processed "id" = Ok (Int64Series [1; 2])
    ∧ imputed_counts (resp_stats body) !! "id" = Some 0%nat.
Proof.
  apply (complete_column_untouched id_score_world "scores.csv" id_score_frame "id");
    reflexivity.
Defined.

(** ** C7: running the imputation twice *)

(** C7, as stated, fails: the processed [gap_frame] still has the two
    missing cells of [x], and a second run on it reports them again. *)
Lemma second_run_counts_all_missing_column :
  ∃ body w' processed body2 w2',
    process_file (Some "gap.csv") gap_world = (Success body, w')
    ∧ files w' !! processed_filename body = Some processed
    ∧ process_file (Some (processed_filename body)) w' = (Success body2, w2')
    ∧ total_imputations (resp_stats body2) = 2%nat.
Proof.
  eexists _, _, _, _, _. split; [vm_compute; reflexivity|].
  split; [vm_compute; reflexivity|]. split; [vm_compute; reflexivity|].
  reflexivity.
Qed.

Lemma missing_count_imputed df col :
  fillable df col = true → numeric_in df col = true →
  missing_count (imputed df) col = 0%nat.
Proof.
  unfold fillable, numeric_in, missing_count.
  destruct (getitem df col) as [s|] eqn:Hg; [|done]. intros Hfill Hnum.
  rewrite (getitem_imputed df col s Hg), Hnum. apply mask_any_false_sum.
  apply orb_true_iff in Hfill as [H|H].
  - apply negb_true_iff in H. by rewrite impute_series_complete.
  - apply negb_true_iff in H. by apply impute_series_no_missing.
Qed.

Lemma sum_list_zero {A} (f : A → nat) l :
  (∀ x, x ∈ l → f x = 0%nat) → sum_list (map f l) = 0%nat.
Proof.
  induction l as [|a l IH]; simpl; [done|]. intros H.
  rewrite (H a) by left. rewrite IH; [done|]. intros x Hx. apply H. by right.
Qed.

(** C7 (amended).  Running [impute] again on the processed output of a
    successful run succeeds and returns a processed table equal to its
    input; its report has [total_imputations == 0] provided every numeric
    column of the first input that had missing cells also had a mean that
    is a number (so that the first run filled it). *)
Theorem impute_twice w filename df body w' processed w2 filename2 :
  files w !! filename = Some df →
  well_formed df = true →
  process_file (Some filename) w = (Success body, w') →
  files w' !! processed_filename body = Some processed →
  files w2 !! filename2 = Some processed →
  ∃ body2 w2',
    process_file (Some filename2) w2 = (Success body2, w2')
    ∧ files w2' !! processed_filename body2 = Some processed
    ∧ (forallb (fillable df) (select_dtypes_number df) = true →
       total_imputations (resp_stats body2) = 0%nat).
Proof.
  intros Hfile Hwf Hrun Hproc Hfile2.
  pose proof (well_formed_NoDup df Hwf) as Hnd.
  assert (Hsel : select_dtypes_number df ≠ []).
  { intros Hsel. unfold process_file in Hrun.
    rewrite (process_file_try_eq _ _ _ Hfile), Hsel in Hrun. by cbn zeta in Hrun. }
  destruct (process_file_success w filename df Hfile Hnd Hsel)
    as (st & rows & flags & Hrun' & _).
  rewrite Hrun in Hrun'. injection Hrun' as -> ->. simpl in Hproc.
  rewrite lookup_insert_eq in Hproc. injection Hproc as <-.
  destruct (process_file_success w2 filename2 (imputed df) Hfile2)
    as (st2 & rows2 & flags2 & -> & Hst2 & _).
  { by rewrite imputed_names. }
  { by rewrite select_dtypes_number_imputed. }
  eexists _, _. split; [done|]. simpl.
  split; [by rewrite lookup_insert_eq, imputed_idem|].
  intros Hfill. rewrite imputed_idem, select_dtypes_number_imputed in Hst2.
  destruct (stats_spec (imputed df) (imputed df) (select_dtypes_number df))
    as (st' & Hst' & _ & _ & _ & Htotal & _).
  { intros c Hc. rewrite <- select_dtypes_number_imputed in Hc.
    apply select_dtypes_number_getitem in Hc; [done | by rewrite imputed_names]. }
  rewrite Hst2 in Hst'. injection Hst' as <-. rewrite Htotal.
  apply sum_list_zero. intros col Hcol. apply missing_count_imputed.
  - rewrite forallb_forall in Hfill. apply Hfill. by apply list_elem_of_In.
  - apply select_dtypes_number_getitem in Hcol as (s & Hg & Hnum); [|done].
    unfold numeric_in. by rewrite Hg.
Qed.

Lemma impute_twice_witness :
  ∃ body2 w2',
    process_file (Some "processed_t.csv") (process_file (Some "t.csv") age_world).2
    = (Success body2, w2')
    ∧ files w2' !! processed_filename body2
      = Some {| index_len := 4;
                columns := [("age", Float64Series [25; 30; 35; 30]%float)] |}
    ∧ total_imputations (resp_stats body2) = 0%nat.
Proof.
  edestruct (impute_twice age_world "t.csv" age_frame)
    with (w2 := (process_file (Some "t.csv") age_world).2)
         (filename2 := "processed_t.csv")
    as (body2 & w2' & H1 & H2 & H3);
    [reflexivity | reflexivity | vm_compute; reflexivity | reflexivity | reflexivity | ].
  exists body2, w2'. split; [exact H1|]. split; [exact H2|].
  apply H3. reflexivity.
Defined.

(** ** C8: the original table is not mutated *)

(** The world after a request on a stored file: the two objects created by
    the request are the frame read and one more frame, and at most the
    processed file is written. *)
Lemma process_file_world w filename df :
  files w !! filename = Some df →
  ∃ p, heap (process_file (Some filename) w).2 = heap w ++ [df; p]
       ∧ (files (process_file (Some filename) w).2 = files w
          ∨ files (process_file (Some filename) w).2
            = <["processed_" +:+ filename := p]> (files w)).
Proof.
  intros Hfile. unfold process_file.
  rewrite (process_file_try_eq _ _ _ Hfile). cbn zeta.
  destruct (select_dtypes_number df) as [|c cs] eqn:Hsel.
  { exists df. simpl. rewrite <- app_assoc. auto. }
  rewrite <- Hsel. clear Hsel c cs.
  set (w2 := {| files := files w; heap := (heap w ++ [df]) ++ [df] |}).
  set (r1 := length (heap w ++ [df])).
  assert (Hr1 : heap w2 !! r1 = Some df).
  { unfold w2, r1. simpl. rewrite lookup_app_r by done. by rewrite Nat.sub_diag. }
  destruct (impute_loop_frame r1 (select_dtypes_number df) w2 df Hr1) as [p Hw3].
  assert (Hheap : <[r1 := p]> ((heap w ++ [df]) ++ [df]) = heap w ++ [df; p]).
  { unfold r1.
    replace (length (heap w ++ [df])) with (length (heap w ++ [df]) + 0)%nat by lia.
    rewrite insert_app_r. simpl. by rewrite <- app_assoc. }
  exists p. unfold mbind, M_bind.
  destruct (impute_loop r1 (select_dtypes_number df) w2) as [[[]|e] w3];
    simpl in Hw3; subst w3; [|simpl; rewrite Hheap; auto].
  rewrite finish_eq. cbn [heap files]. rewrite Hheap.
  assert ((heap w ++ [df; p]) !!! r1 = p) as ->.
  { apply list_lookup_total_correct. unfold r1.
    change (heap w ++ [df; p]) with (heap w ++ [df] ++ [p]).
    rewrite app_assoc. rewrite lookup_app_r by done. by rewrite Nat.sub_diag. }
  destruct (calculate_imputation_stats _ _ _); [|simpl; auto]. cbn zeta.
  destruct (make_preview_data _); [|simpl; auto].
  destruct (flags_loop _ _ _ _); simpl; auto.
Qed.

(** C8.  [process_file] never mutates the original table: whatever the
    outcome, the object [original_df] holds the frame that was read, every
    object that existed before the call is unchanged, and so is the
    uploaded file. *)
Theorem original_never_mutated w filename df :
  files w !! filename = Some df →
  heap (process_file (Some filename) w).2 !! length (heap w) = Some df
  ∧ (∀ r x, heap w !! r = Some x →
            heap (process_file (Some filename) w).2 !! r = Some x)
  ∧ files (process_file (Some filename) w).2 !! filename = Some df.
Proof.
  intros Hfile.
  destruct (process_file_world w filename df Hfile) as (p & -> & Hfiles).
  split; [|split].
  - rewrite lookup_app_r by done. by rewrite Nat.sub_diag.
  - intros r x Hr. by apply lookup_app_l_Some.
  - destruct Hfiles as [->| ->]; [done|].
    rewrite lookup_insert_ne; [done|]. apply processed_name_fresh.
Qed.

Lemma original_never_mutated_witness :
  heap (process_file (Some "t.csv") age_world).2 !! length (heap age_world)
  = Some age_frame
  ∧ (∀ r x, heap age_world !! r = Some x →
            heap (process_file (Some "t.csv") age_world).2 !! r = Some x)
  ∧ files (process_file (Some "t.csv") age_world).2 !! "t.csv" = Some age_frame.
Proof. apply (original_never_mutated age_world "t.csv" age_frame). reflexivity. Defined.

(** ** C9: the preview *)

(** C9 fails on the code at frames of mixed dtypes.  [iterrows] casts each
    row to the common dtype of the columns: next to a floating-point column
    the integer [id] becomes a double and is serialized as one; next to a
    text column the rows hold native Python numbers, which are instances of
    neither [np.integer] nor [np.floating], so that integers and fractions
    alike fall through to [str(value)]. *)
Lemma preview_loses_integer_cells :
  (∃ body w' row,
     process_file (Some "scores.csv") id_score_world = (Success body, w')
     ∧ preview_data body !! 0%nat = Some row
     ∧ row !! "id" = Some (JFloat 1%float))
  ∧ (∃ body w' row,
       process_file (Some "people.csv") people_world = (Success body, w')
       ∧ preview_data body !! 0%nat = Some row
       ∧ row !! "age" = Some (JText (PyInt 25))
       ∧ row !! "height" = Some (JText (PyFloat 1.5%float))).
Proof.
  split; eexists _, _, _; (split; [vm_compute; reflexivity|]); repeat split.
Qed.

(** ** C10: the flags *)

Lemma head_index_len n df : index_len (head n df) = Nat.min n (index_len df).
Proof. done. Qed.

(** C10.  For every numeric column the flag sequence has as many entries as
    the preview has rows, its [k]-th entry is the missing mark of the
    [k]-th cell of the original column, and it depends on the original
    table only: the reporting phase run with the same original and any
    processed table yields the same flags. *)
Theorem imputation_flags_from_original w filename df col s :
  files w !! filename = Some df →
  well_formed df = true →
  getitem df col = Ok s →
  is_number (Series_dtype s) = true →
  ∃ body w' flags,
    process_file (Some filename) w = (Success body, w')
    ∧ col ∈ resp_numeric_columns body
    ∧ imputation_flags body !! col = Some flags
    ∧ length flags = length (preview_data body)
    ∧ length flags = Nat.min 50 (index_len df)
    ∧ (∀ k, (k < length flags)%nat → flags !! k = isna s !! k)
    ∧ (∀ w2 original_df processed_df body2 w2',
         heap w2 !! original_df = Some df →
         finish filename original_df processed_df (resp_numeric_columns body) w2
         = (Ok (Success body2), w2') →
         imputation_flags body2 = imputation_flags body).
Proof.
  intros Hfile Hwf Hg Hnum.
  pose proof (well_formed_NoDup df Hwf) as Hnd.
  assert (Hcol : col ∈ select_dtypes_number df).
  { apply select_dtypes_number_getitem; eauto. }
  destruct (process_file_success w filename df Hfile Hnd)
    as (st & rows & flags & -> & _ & Hrows & Hflags).
  { intros H. rewrite H in Hcol. by apply elem_of_nil in Hcol. }
  destruct (make_preview_data_ok (head 50 (imputed df))) as (rows' & Hrows' & Hlen).
  rewrite Hrows in Hrows'. injection Hrows' as <-.
  destruct (flags_loop_spec 50 df (select_dtypes_number df) ∅)
    as (flags' & Hflags' & Hin & _).
  { intros c Hc. apply select_dtypes_number_getitem in Hc as (? & ? & _); eauto. }
  rewrite Hflags in Hflags'. injection Hflags' as <-.
  assert (Hflen : length (take 50 (isna s)) = Nat.min 50 (index_len df)).
  { by rewrite length_take, isna_length, (well_formed_len df col s Hwf Hg). }
  eexists _, _, (take 50 (isna s)). split; [done|]. simpl.
  split; [done|]. split; [by apply Hin|].
  split; [by rewrite Hlen, head_index_len|]. split; [done|]. split.
  - intros k Hk. apply lookup_take_lt. rewrite length_take in Hk. lia.
  - intros w2 r0 r1 body2 w2' Hr0 Hfin. rewrite finish_eq in Hfin.
    rewrite (list_lookup_total_correct _ _ _ Hr0) in Hfin.
    destruct (calculate_imputation_stats df (heap w2 !!! r1) _); [|done].
    cbn zeta in Hfin.
    destruct (make_preview_data (head 50 (heap w2 !!! r1))); [|done].
    rewrite Hflags in Hfin. by injection Hfin as <- _.
Qed.

Lemma imputation_flags_from_original_witness :
  ∃ body w' flags,
    process_file (Some "t.csv") age_world = (Success body, w')
    ∧ "age" ∈ resp_numeric_columns body
    ∧ imputation_flags body !! "age" = Some flags
    ∧ length flags = length (preview_data body)
    ∧ length flags = Nat.min 50 (index_len age_frame)
    ∧ (∀ k, (k < length flags)%nat →
            flags !! k = isna (Float64Series [25; nan; 35; nan]%float) !! k).
Proof.
  destruct (imputation_flags_from_original age_world "t.csv" age_frame "age"
              (Float64Series [25; nan; 35; nan]%float))
    as (body & w' & flags & H1 & H2 & H3 & H4 & H5 & H6 & _); try reflexivity.
  by exists body, w', flags.
Defined.

(** * Further properties of the routes *)

(** ** The outcomes of [process_file] *)

(** A successful request, read backwards: what the answer and the world
    are made of. *)
Lemma process_file_Success_inv w filename df body w' :
  files w !! filename = Some df →
  NoDup (column_names df) →
  process_file (Some filename) w = (Success body, w') →
  select_dtypes_number df ≠ []
  ∧ w' = {| files := <["processed_" +:+ filename := imputed df]> (files w);
            heap := heap w ++ [df; imputed df] |}
  ∧ processed_filename body = "processed_" +:+ filename
  ∧ resp_numeric_columns body = select_dtypes_number df
  ∧ calculate_imputation_stats df (imputed df) (select_dtypes_number df)
    = Ok (resp_stats body)
  ∧ make_preview_data (head 50 (imputed df)) = Ok (preview_data body)
  ∧ flags_loop 50 df (select_dtypes_number df) ∅ = Ok (imputation_flags body).
Proof.
  intros Hfile Hnd Hrun.
  assert (Hsel : select_dtypes_number df ≠ []).
  { intros Hsel. unfold process_file in Hrun.
    rewrite (process_file_try_eq _ _ _ Hfile), Hsel in Hrun. by cbn zeta in Hrun. }
  destruct (process_file_success w filename df Hfile Hnd Hsel)
    as (st & rows & flags & Hrun' & Hst & Hrows & Hflags).
  rewrite Hrun in Hrun'. by injection Hrun' as -> ->.
Qed.



(** X2.  On a stored well-formed frame no exception is raised: the answer
    is the report when the frame has a numeric column and the 400 error
    when it has none, never a 500. *)
Theorem process_file_no_server_error w filename df :
  files w !! filename = Some df →
  well_formed df = true →
  (select_dtypes_number df = []
   ∧ (process_file (Some filename) w).1
     = BadRequest "No numeric columns found for imputation")
  ∨ (select_dtypes_number df ≠ []
     ∧ ∃ body, (process_file (Some filename) w).1 = Success body
               ∧ resp_numeric_columns body = select_dtypes_number df).
Proof.
  intros Hfile Hwf. destruct (select_dtypes_number df) as [|c cs] eqn:Hsel.
  - left. split; [done|]. unfold process_file.
    by rewrite (process_file_try_eq _ _ _ Hfile), Hsel.
  - right. split; [done|]. rewrite <- Hsel.
    destruct (process_file_success w filename df Hfile (well_formed_NoDup df Hwf))
      as (st & rows & flags & -> & _); [by rewrite Hsel|].
    by eexists.
Qed.

Lemma process_file_no_server_error_witness :
  ∃ body, (process_file (Some "people.csv") people_world).1 = Success body
          ∧ resp_numeric_columns body = ["age"; "height"].
Proof.
  destruct (process_file_no_server_error people_world "people.csv" people_frame)
    as [[H _]|[_ H]]; [reflexivity | reflexivity | discriminate H | exact H].
Defined.


(** ** The report, beyond the means *)

Lemma numeric_in_cols original cols :
  forallb (numeric_in original) cols = true →
  ∀ col, col ∈ cols →
    ∃ s, getitem original col = Ok s ∧ is_number (Series_dtype s) = true.
Proof.
  intros Hcols col Hcol. rewrite forallb_forall in Hcols.
  specialize (Hcols col (proj1 (list_elem_of_In _ _) Hcol)).
  unfold numeric_in in Hcols. destruct (getitem original col); [eauto | done].
Qed.

Lemma stats_outside original processed cols st col :
  calculate_imputation_stats original processed cols = Ok st →
  forallb (numeric_in original) cols = true →
  col ∉ cols →
  column_means st !! col = None ∧ imputed_counts st !! col = None.
Proof.
  intros Hst Hcols Hcol. unfold calculate_imputation_stats in Hst.
  destruct (stats_loop_spec original cols ∅ ∅ 0%nat (numeric_in_cols _ _ Hcols))
    as (means & counts & Hloop & _ & Hout).
  rewrite Hloop in Hst. cbn [mbind result_bind] in Hst.
  destruct (Hout col Hcol) as [Hm Hc].
  rewrite lookup_empty in Hm. rewrite lookup_empty in Hc.
  destruct (0 <? _); [destruct (int_true_div _ _); [|done]|];
    cbn [mbind result_bind] in Hst; injection Hst as <-; done.
Qed.

Lemma mask_sum_le mask : (mask_sum mask ≤ length mask)%nat.
Proof. unfold mask_sum. apply length_filter. Qed.

Lemma sum_list_le {A} (f : A → nat) (n : nat) l :
  (∀ x, x ∈ l → (f x ≤ n)%nat) → (sum_list (map f l) ≤ n * length l)%nat.
Proof.
  induction l as [|a l IH]; simpl; [lia|]. intros H.
  assert (f a ≤ n)%nat by (apply H; left).
  assert (sum_list (map f l) ≤ n * length l)%nat by (apply IH; intros; apply H; by right).
  lia.
Qed.

(** X3.  [total_imputations] is the sum of the [imputed_counts] entries of
    the columns reported on: the total and the per-column counts of a
    report never disagree. *)
Theorem total_imputations_is_sum original processed cols :
  forallb (numeric_in original) cols = true →
  ∃ st,
    calculate_imputation_stats original processed cols = Ok st
    ∧ total_imputations st
      = sum_list (map (fun col => default 0%nat (imputed_counts st !! col)) cols).
Proof.
  intros Hcols.
  destruct (stats_spec original processed cols (numeric_in_cols _ _ Hcols))
    as (st & Hst & _ & _ & _ & Htotal & Hentries & _).
  exists st. split; [done|]. rewrite Htotal. f_equal.
  apply map_ext_in. intros col Hin. apply list_elem_of_In in Hin.
  destruct (numeric_in_cols _ _ Hcols col Hin) as (s & Hg & _).
  destruct (Hentries col s Hin Hg) as [_ ->]. unfold missing_count. by rewrite Hg.
Qed.

Lemma total_imputations_is_sum_witness :
  ∃ st,
    calculate_imputation_stats ten_rows_frame ten_rows_frame ["a"; "b"] = Ok st
    ∧ total_imputations st
      = sum_list (map (fun col => default 0%nat (imputed_counts st !! col)) ["a"; "b"]).
Proof.
  apply (total_imputations_is_sum ten_rows_frame ten_rows_frame ["a"; "b"]).
  reflexivity.
Defined.

(** X4.  On a well-formed table the report never counts more imputations
    than there are numeric cells: [total_imputations <= total_rows *
    numeric_columns], so that the rate is a proportion. *)
Theorem total_imputations_bounded original processed cols :
  well_formed original = true →
  forallb (numeric_in original) cols = true →
  ∃ st,
    calculate_imputation_stats original processed cols = Ok st
    ∧ (total_imputations st ≤ total_rows st * numeric_columns st)%nat.
Proof.
  intros Hwf Hcols.
  destruct (stats_spec original processed cols (numeric_in_cols _ _ Hcols))
    as (st & Hst & Hrows & _ & Hn & Htotal & _).
  exists st. split; [done|]. rewrite Htotal, Hrows, Hn.
  apply sum_list_le. intros col Hcol.
  destruct (numeric_in_cols _ _ Hcols col Hcol) as (s & Hg & _).
  unfold missing_count. rewrite Hg.
  rewrite <- (well_formed_len original col s Hwf Hg), <- isna_length.
  apply mask_sum_le.
Qed.

Lemma total_imputations_bounded_witness :
  ∃ st,
    calculate_imputation_stats ten_rows_frame ten_rows_frame ["a"; "b"] = Ok st
    ∧ (total_imputations st ≤ total_rows st * numeric_columns st)%nat.
Proof.
  apply (total_imputations_bounded ten_rows_frame ten_rows_frame ["a"; "b"]);
    reflexivity.
Defined.

(** ** The processed table *)

(** X5.  A column that is not numeric is copied to the processed table as
    it is, missing markers included. *)
Theorem non_numeric_columns_copied w filename df body w' col s :
  files w !! filename = Some df →
  well_formed df = true →
  process_file (Some filename) w = (Success body, w') →
  getitem df col = Ok s →
  is_number (Series_dtype s) = false →
  ∃ processed,
    files w' !! processed_filename body = Some processed
    ∧ getitem processed col = Ok s.
Proof.
  intros Hfile Hwf Hrun Hg Hnum.
  destruct (process_file_Success_inv _ _ _ _ _ Hfile (well_formed_NoDup df Hwf) Hrun)
    as (_ & -> & -> & _).
  exists (imputed df). simpl. split; [by rewrite lookup_insert_eq|].
  by rewrite (getitem_imputed df col s Hg), Hnum.
Qed.

Lemma non_numeric_columns_copied_witness :
  ∃ processed,
    files (process_file (Some "people.csv") people_world).2 !! "processed_people.csv"
    = Some processed
    ∧ getitem processed "name" = Ok (ObjectSeries [PyStr "Ann"; PyStr "Bob"]).
Proof.
  edestruct (non_numeric_columns_copied people_world "people.csv" people_frame)
    with (col := "name") as (processed & H1 & H2);
    [reflexivity | reflexivity | vm_compute; reflexivity | reflexivity | reflexivity |].
  exists processed. split; [exact H1 | exact H2].
Defined.

(** X6.  The processed table has the shape of the original: the same
    column labels in the same order, the same number of rows, and for each
    column the same dtype and length; it is again well-formed. *)
Theorem processed_table_shape w filename df body w' :
  files w !! filename = Some df →
  well_formed df = true →
  process_file (Some filename) w = (Success body, w') →
  ∃ processed,
    files w' !! processed_filename body = Some processed
    ∧ column_names processed = column_names df
    ∧ index_len processed = index_len df
    ∧ well_formed processed = true
    ∧ (∀ col s, getitem df col = Ok s →
         ∃ s', getitem processed col = Ok s'
               ∧ Series_dtype s' = Series_dtype s
               ∧ Series_len s' = Series_len s).
Proof.
  intros Hfile Hwf Hrun.
  destruct (process_file_Success_inv _ _ _ _ _ Hfile (well_formed_NoDup df Hwf) Hrun)
    as (_ & -> & -> & _).
  exists (imputed df). simpl. split; [by rewrite lookup_insert_eq|].
  split; [apply imputed_names|]. split; [done|].
  split; [by rewrite well_formed_imputed|].
  intros col s Hg. rewrite (getitem_imputed df col s Hg). eexists. split; [done|].
  destruct (is_number (Series_dtype s)); [|done].
  by rewrite impute_series_dtype, impute_series_len.
Qed.

Lemma processed_table_shape_witness :
  ∃ processed,
    files (process_file (Some "people.csv") people_world).2 !! "processed_people.csv"
    = Some processed
    ∧ column_names processed = ["name"; "age"; "height"]
    ∧ index_len processed = 2%nat
    ∧ well_formed processed = true.
Proof.
  edestruct (processed_table_shape people_world "people.csv" people_frame)
    as (processed & H1 & H2 & H3 & H4 & _);
    [reflexivity | reflexivity | vm_compute; reflexivity |].
  exists processed. repeat split; assumption.
Defined.

Lemma no_nan_map_id m l :
  existsb id (map is_nan l) = false →
  map (fun x => if is_nan x then m else x) l = l.
Proof.
  induction l as [|x l IH]; simpl; [done|]. intros H.
  apply orb_false_iff in H as [Hx H]. unfold id in Hx. by rewrite Hx, IH.
Qed.

Lemma impute_series_float l :
  is_nan (mean_of (filter (fun f => is_nan f = false) l)) = false →
  impute_series (Float64Series l)
  = Float64Series (map (fun x => if is_nan x
                                 then mean_of (filter (fun f => is_nan f = false) l)
                                 else x) l).
Proof.
  intros Hm. unfold impute_series. simpl. rewrite Hm. simpl.
  destruct (mask_any (map is_nan l)) eqn:Hany; [done|].
  unfold mask_any in Hany. by rewrite no_nan_map_id.
Qed.

(** X7.  In a floating-point column whose mean [m] is a number, every cell
    that was missing holds exactly the [column_means] entry of the report
    in the processed table, and every other cell is unchanged. *)
Theorem imputed_cells_hold_reported_mean w filename df col l :
  files w !! filename = Some df →
  well_formed df = true →
  getitem df col = Ok (Float64Series l) →
  is_nan (mean_of (filter (fun f => is_nan f = false) l)) = false →
  ∃ body w' processed m l',
    process_file (Some filename) w = (Success body, w')
    ∧ files w' !! processed_filename body = Some processed
    ∧ column_means (resp_stats body) !! col = Some m
    ∧ getitem processed col = Ok (Float64Series l')
    ∧ length l' = length l
    ∧ (∀ k x, l !! k = Some x → l' !! k = Some (if is_nan x then m else x)).
Proof.
  intros Hfile Hwf Hg Hm.
  pose proof (well_formed_NoDup df Hwf) as Hnd.
  assert (Hcol : col ∈ select_dtypes_number df).
  { apply select_dtypes_number_getitem; eauto. }
  destruct (process_file_success w filename df Hfile Hnd)
    as (st & rows & flags & -> & Hst & _).
  { intros H. rewrite H in Hcol. by apply elem_of_nil in Hcol. }
  destruct (stats_spec df (imputed df) (select_dtypes_number df))
    as (st' & Hst' & _ & _ & _ & _ & Hentries & _).
  { intros c. by apply select_dtypes_number_getitem. }
  rewrite Hst in Hst'. injection Hst' as <-.
  destruct (Hentries col _ Hcol Hg) as [Hmean _].
  eexists _, _, (imputed df), _, _. split; [done|]. simpl.
  split; [by rewrite lookup_insert_eq|]. split; [exact Hmean|].
  split; [by rewrite (getitem_imputed df col _ Hg); simpl; rewrite impute_series_float|].
  split; [by rewrite length_map|].
  intros k x Hk. rewrite list_lookup_fmap, Hk. simpl.
  unfold reported_mean. simpl. by rewrite Hm.
Qed.

Lemma imputed_cells_hold_reported_mean_witness :
  ∃ body w' processed m l',
    process_file (Some "t.csv") age_world = (Success body, w')
    ∧ files w' !! processed_filename body = Some processed
    ∧ column_means (resp_stats body) !! "age" = Some m
    ∧ getitem processed "age" = Ok (Float64Series l')
    ∧ length l' = length [25; nan; 35; nan]%float
    ∧ (∀ k x, [25; nan; 35; nan]%float !! k = Some x →
              l' !! k = Some (if is_nan x then m else x)).
Proof.
  apply (imputed_cells_hold_reported_mean age_world "t.csv" age_frame "age");
    reflexivity.
Defined.

(** ** Report, flags and preview of one answer *)

Lemma flags_outside limit df cols flags col :
  flags_loop limit df cols ∅ = Ok flags →
  (∀ c, c ∈ cols → ∃ s, getitem df c = Ok s) →
  col ∉ cols → flags !! col = None.
Proof.
  intros Hloop Hcols Hcol.
  destruct (flags_loop_spec limit df cols ∅ Hcols) as (flags' & Hloop' & _ & Hout).
  rewrite Hloop in Hloop'. injection Hloop' as <-.
  by rewrite (Hout col Hcol), lookup_empty.
Qed.

Lemma numeric_in_select df :
  NoDup (column_names df) →
  forallb (numeric_in df) (select_dtypes_number df) = true.
Proof.
  intros Hnd. apply forallb_forall. intros col Hcol. apply list_elem_of_In in Hcol.
  apply select_dtypes_number_getitem in Hcol as (s & Hg & Hnum); [|done].
  unfold numeric_in. by rewrite Hg.
Qed.

(** X8.  The answer reports on the numeric columns and on no other:
    [column_means], [imputed_counts] and [imputation_flags] each have an
    entry for a label exactly when it names a numeric column. *)
Theorem report_entries_are_numeric_columns w filename df body w' col :
  files w !! filename = Some df →
  well_formed df = true →
  process_file (Some filename) w = (Success body, w') →
  (col ∈ select_dtypes_number df ↔ is_Some (column_means (resp_stats body) !! col))
  ∧ (col ∈ select_dtypes_number df ↔ is_Some (imputed_counts (resp_stats body) !! col))
  ∧ (col ∈ select_dtypes_number df ↔ is_Some (imputation_flags body !! col)).
Proof.
  intros Hfile Hwf Hrun. pose proof (well_formed_NoDup df Hwf) as Hnd.
  destruct (process_file_Success_inv _ _ _ _ _ Hfile Hnd Hrun)
    as (_ & _ & _ & _ & Hst & _ & Hflags).
  assert (Hcols : ∀ c, c ∈ select_dtypes_number df →
            ∃ s, getitem df c = Ok s ∧ is_number (Series_dtype s) = true).
  { intros c. by apply select_dtypes_number_getitem. }
  destruct (decide (col ∈ select_dtypes_number df)) as [Hcol|Hcol].
  - destruct (Hcols col Hcol) as (s & Hg & _).
    destruct (stats_spec df (imputed df) (select_dtypes_number df) Hcols)
      as (st' & Hst' & _ & _ & _ & _ & Hentries & _).
    rewrite Hst in Hst'. injection Hst' as <-.
    destruct (Hentries col s Hcol Hg) as [-> ->].
    destruct (flags_loop_spec 50 df (select_dtypes_number df) ∅)
      as (flags' & Hflags' & Hin & _).
    { intros c Hc. destruct (Hcols c Hc) as (? & ? & _); eauto. }
    rewrite Hflags in Hflags'. injection Hflags' as <-.
    rewrite (Hin col s Hcol Hg). repeat split; eauto.
  - destruct (stats_outside _ _ _ _ col Hst (numeric_in_select df Hnd) Hcol) as [-> ->].
    rewrite (flags_outside 50 df _ _ col Hflags); [|by intros c Hc;
      destruct (Hcols c Hc) as (? & ? & _); eauto|done].
    repeat split; try done; by intros [? ?].
Qed.

Lemma report_entries_are_numeric_columns_witness :
  ∃ body w',
    process_file (Some "people.csv") people_world = (Success body, w')
    ∧ ("name" ∈ select_dtypes_number people_frame
       ↔ is_Some (imputation_flags body !! "name")).
Proof.
  eexists _, _. split; [vm_compute; reflexivity|].
  refine (proj2 (proj2 (report_entries_are_numeric_columns
            people_world "people.csv" people_frame _ _ "name" _ _ _)));
    [reflexivity | reflexivity | vm_compute; reflexivity].
Defined.

Lemma mask_sum_take n mask : (mask_sum (take n mask) ≤ mask_sum mask)%nat.
Proof.
  unfold mask_sum. revert n. induction mask as [|b mask IH]; intros [|n]; simpl;
    try lia.
  rewrite !filter_cons. specialize (IH n). case_decide; simpl; lia.
Qed.

(** X9.  The flags of a numeric column never mark more cells than the
    report counts for it, and when the table has at most 50 rows the
    number of marked cells is exactly [imputed_counts[col]]. *)
Theorem flags_agree_with_counts w filename df col s :
  files w !! filename = Some df →
  well_formed df = true →
  getitem df col = Ok s →
  is_number (Series_dtype s) = true →
  ∃ body w' flags n,
    process_file (Some filename) w = (Success body, w')
    ∧ imputation_flags body !! col = Some flags
    ∧ imputed_counts (resp_stats body) !! col = Some n
    ∧ (mask_sum flags ≤ n)%nat
    ∧ ((index_len df ≤ 50)%nat → mask_sum flags = n).
Proof.
  intros Hfile Hwf Hg Hnum. pose proof (well_formed_NoDup df Hwf) as Hnd.
  assert (Hcols : ∀ c, c ∈ select_dtypes_number df →
            ∃ s, getitem df c = Ok s ∧ is_number (Series_dtype s) = true).
  { intros c. by apply select_dtypes_number_getitem. }
  assert (Hcol : col ∈ select_dtypes_number df).
  { apply select_dtypes_number_getitem; eauto. }
  destruct (process_file_success w filename df Hfile Hnd)
    as (st & rows & flags & -> & Hst & _ & Hflags).
  { intros H. rewrite H in Hcol. by apply elem_of_nil in Hcol. }
  destruct (stats_spec df (imputed df) (select_dtypes_number df) Hcols)
    as (st' & Hst' & _ & _ & _ & _ & Hentries & _).
  rewrite Hst in Hst'. injection Hst' as <-.
  destruct (Hentries col s Hcol Hg) as [_ Hcount].
  destruct (flags_loop_spec 50 df (select_dtypes_number df) ∅)
    as (flags' & Hflags' & Hin & _).
  { intros c Hc. destruct (Hcols c Hc) as (? & ? & _); eauto. }
  rewrite Hflags in Hflags'. injection Hflags' as <-.
  eexists _, _, (take 50 (isna s)), (mask_sum (isna s)). split; [done|]. simpl.
  split; [by apply Hin|]. split; [done|]. split; [apply mask_sum_take|].
  intros Hrows. rewrite take_ge; [done|].
  by rewrite isna_length, (well_formed_len df col s Hwf Hg).
Qed.

Lemma flags_agree_with_counts_witness :
  ∃ body w' flags n,
    process_file (Some "t.csv") age_world = (Success body, w')
    ∧ imputation_flags body !! "age" = Some flags
    ∧ imputed_counts (resp_stats body) !! "age" = Some n
    ∧ (mask_sum flags ≤ n)%nat
    ∧ ((index_len age_frame ≤ 50)%nat → mask_sum flags = n).
Proof.
  apply (flags_agree_with_counts age_world "t.csv" age_frame "age"
           (Float64Series [25; nan; 35; nan]%float)); reflexivity.
Defined.

(** X10.  Processing is repeatable: a second request on the same upload
    gives the same answer and leaves the stored files as the first request
    left them. *)
Theorem process_file_repeatable w filename df body w' :
  files w !! filename = Some df →
  well_formed df = true →
  process_file (Some filename) w = (Success body, w') →
  ∃ w'', process_file (Some filename) w' = (Success body, w'')
         ∧ files w'' = files w'.
Proof.
  intros Hfile Hwf Hrun. pose proof (well_formed_NoDup df Hwf) as Hnd.
  destruct (process_file_Success_inv _ _ _ _ _ Hfile Hnd Hrun)
    as (Hsel & -> & Hname & Hnc & Hst & Hrows & Hflags).
  destruct (process_file_success
              {| files := <["processed_" +:+ filename := imputed df]> (files w);
                 heap := heap w ++ [df; imputed df] |} filename df)
    as (st & rows & flags & -> & Hst2 & Hrows2 & Hflags2); [|done|done|].
  { simpl. rewrite lookup_insert_ne; [done | apply processed_name_fresh]. }
  rewrite Hst in Hst2. rewrite Hrows in Hrows2. rewrite Hflags in Hflags2.
  injection Hst2 as <-. injection Hrows2 as <-. injection Hflags2 as <-.
  eexists. split.
  - f_equal. f_equal. destruct body; simpl in *. by subst.
  - simpl. by rewrite insert_insert_eq.
Qed.

Lemma process_file_repeatable_witness :
  ∃ body w' w'',
    process_file (Some "t.csv") age_world = (Success body, w')
    ∧ process_file (Some "t.csv") w' = (Success body, w'')
    ∧ files w'' = files w'.
Proof.
  edestruct (process_file_repeatable age_world "t.csv" age_frame)
    as (w'' & H1 & H2); [reflexivity | reflexivity | vm_compute; reflexivity |].
  eexists _, _, w''. split; [vm_compute; reflexivity|]. split; [exact H1 | exact H2].
Defined.

(** ** The preview, cell by cell *)

Lemma row_dict_loop_lookup row cols : ∀ row_dict row_dict',
  row_dict_loop row cols row_dict = Ok row_dict' →
  ∀ col, row_dict' !! col
         = if decide (col ∈ cols) then to_native <$> assoc col row
           else row_dict !! col.
Proof.
  induction cols as [|c cols IH]; intros d d' Hloop col.
  - injection Hloop as <-. rewrite decide_False; [done | apply not_elem_of_nil].
  - cbn [row_dict_loop] in Hloop. unfold row_getitem in Hloop.
    destruct (assoc c row) as [v|] eqn:Ha; [|done]. cbn [mbind result_bind] in Hloop.
    rewrite (IH _ _ Hloop col).
    destruct (decide (col ∈ cols)) as [Hin|Hin].
    + rewrite decide_True; [done | by right].
    + destruct (decide (col = c)) as [->|Hne].
      * rewrite decide_True by left. by rewrite lookup_insert_eq, Ha.
      * rewrite decide_False; [by rewrite lookup_insert_ne|].
        intros H. apply elem_of_cons in H as [?|?]; done.
Qed.

Lemma preview_loop_lookup cols rows : ∀ out,
  preview_loop cols rows = Ok out →
  ∀ k row, rows !! k = Some row →
    ∃ row_dict, out !! k = Some row_dict
      ∧ ∀ col, row_dict !! col
               = if decide (col ∈ cols) then to_native <$> assoc col row else None.
Proof.
  induction rows as [|r rows IH]; intros out Hloop k row Hk; [done|].
  cbn [preview_loop] in Hloop.
  destruct (row_dict_loop r cols ∅) as [d|] eqn:Hd; [|done].
  cbn [mbind result_bind] in Hloop.
  destruct (preview_loop cols rows) as [rest|] eqn:Hrest; [|done].
  cbn [mbind result_bind] in Hloop. injection Hloop as <-.
  destruct k as [|k]; simpl in *.
  - injection Hk as <-. exists d. split; [done|]. intros col.
    rewrite (row_dict_loop_lookup _ _ _ _ Hd col). by rewrite lookup_empty.
  - by apply IH.
Qed.

Lemma preview_loop_length cols rows : ∀ out,
  preview_loop cols rows = Ok out → length out = length rows.
Proof.
  induction rows as [|r rows IH]; intros out Hloop.
  - by injection Hloop as <-.
  - cbn [preview_loop] in Hloop.
    destruct (row_dict_loop r cols ∅) as [d|]; [|done].
    cbn [mbind result_bind] in Hloop.
    destruct (preview_loop cols rows) as [rest|]; [|done].
    cbn [mbind result_bind] in Hloop. injection Hloop as <-. simpl.
    by rewrite (IH rest).
Qed.

Lemma assoc_map_snd {A B} (f : A → B) col (l : list (string * A)) :
  assoc col (map (fun c => (fst c, f (snd c))) l) = f <$> assoc col l.
Proof.
  induction l as [|[k v] l IH]; simpl; [done|]. by destruct (String.eqb k col).
Qed.

Lemma assoc_is_Some {A} col (l : list (string * A)) :
  is_Some (assoc col l) ↔ col ∈ map fst l.
Proof.
  destruct (assoc col l) as [v|] eqn:Ha.
  - split; [intros _|eauto]. apply assoc_Some_elem_of in Ha.
    apply list_elem_of_fmap. by exists (col, v).
  - split; [by intros [? ?]|]. intros Hin. by apply assoc_None_not_elem_of in Ha.
Qed.

(** The preview of a frame: row [k] maps each column label to the
    serialized cell [k] of that column, cast to the common dtype. *)
Lemma make_preview_data_lookup preview_df out k :
  make_preview_data preview_df = Ok out →
  (k < index_len preview_df)%nat →
  ∃ row_dict, out !! k = Some row_dict
    ∧ ∀ col, row_dict !! col
        = (fun s => to_native
             (astype (common_dtype (map (fun c => Series_dtype (snd c))
                                        (columns preview_df))) s !!! k))
          <$> assoc col (columns preview_df).
Proof.
  intros Hout Hk. unfold make_preview_data in Hout.
  assert (Hrow : iterrows preview_df !! k
    = Some (map (fun c => (fst c, astype (common_dtype (map (fun c => Series_dtype (snd c))
                              (columns preview_df))) (snd c) !!! k)) (columns preview_df))).
  { unfold iterrows. rewrite list_lookup_fmap, lookup_seq_lt by done. done. }
  destruct (preview_loop_lookup _ _ _ Hout k _ Hrow) as (d & Hd & Hcells).
  exists d. split; [done|]. intros col. rewrite Hcells.
  rewrite (assoc_map_snd (fun s => astype _ s !!! k)).
  destruct (decide (col ∈ column_names preview_df)) as [Hin|Hin].
  - by destruct (assoc col (columns preview_df)).
  - apply assoc_None_not_elem_of in Hin. by rewrite Hin.
Qed.

Lemma head_names n df : column_names (head n df) = column_names df.
Proof. unfold column_names, head. simpl. rewrite map_map. by apply map_ext. Qed.

Lemma to_native_float v f : to_native v = JFloat f → is_nan f = false.
Proof.
  unfold to_native. destruct (pd_isna v) eqn:Hna; [done|].
  destruct v; try done. by intros [= <-].
Qed.

Lemma to_native_text v x : to_native v = JText x → pd_isna x = false.
Proof.
  unfold to_native. destruct (pd_isna v) eqn:Hna; [done|].
  destruct v; try done; by intros [= <-].
Qed.

(** X11.  The preview has one row for each of the first 50 rows of the
    table, and every row has an entry for each column label of the table
    and for nothing else. *)
Theorem preview_rows_and_keys w filename df body w' :
  files w !! filename = Some df →
  well_formed df = true →
  process_file (Some filename) w = (Success body, w') →
  length (preview_data body) = Nat.min 50 (index_len df)
  ∧ ∀ k row col, preview_data body !! k = Some row →
      (is_Some (row !! col) ↔ col ∈ column_names df).
Proof.
  intros Hfile Hwf Hrun. pose proof (well_formed_NoDup df Hwf) as Hnd.
  destruct (process_file_Success_inv _ _ _ _ _ Hfile Hnd Hrun)
    as (_ & _ & _ & _ & _ & Hrows & _).
  assert (Hlen : length (preview_data body) = Nat.min 50 (index_len df)).
  { unfold make_preview_data in Hrows.
    by rewrite (preview_loop_length _ _ _ Hrows), iterrows_length. }
  split; [done|]. intros k row col Hk.
  destruct (make_preview_data_lookup _ _ k Hrows) as (d & Hd & Hcells).
  { apply lookup_lt_Some in Hk. rewrite Hlen in Hk. exact Hk. }
  rewrite Hk in Hd. injection Hd as <-. rewrite Hcells.
  rewrite <- (imputed_names df), <- (head_names 50 (imputed df)).
  unfold column_names. rewrite <- assoc_is_Some.
  destruct (assoc col (columns (head 50 (imputed df)))); simpl;
    split; intros [? ?]; (done || by eexists).
Qed.

Lemma preview_rows_and_keys_witness :
  ∃ body w',
    process_file (Some "people.csv") people_world = (Success body, w')
    ∧ length (preview_data body) = Nat.min 50 (index_len people_frame).
Proof.
  eexists _, _. split; [vm_compute; reflexivity|].
  refine (proj1 (preview_rows_and_keys people_world "people.csv" people_frame
                   _ _ _ _ _)); [reflexivity | reflexivity | vm_compute; reflexivity].
Defined.

(** X12.  The preview never carries a NaN: a cell serialized as a float
    holds a number, a cell serialized as text is not a missing marker;
    missing cells are serialized as null. *)
Theorem preview_has_no_nan w filename df body w' k row col :
  files w !! filename = Some df →
  well_formed df = true →
  process_file (Some filename) w = (Success body, w') →
  preview_data body !! k = Some row →
  (∀ f, row !! col = Some (JFloat f) → is_nan f = false)
  ∧ (∀ v, row !! col = Some (JText v) → pd_isna v = false).
Proof.
  intros Hfile Hwf Hrun Hk. pose proof (well_formed_NoDup df Hwf) as Hnd.
  destruct (process_file_Success_inv _ _ _ _ _ Hfile Hnd Hrun)
    as (_ & _ & _ & _ & _ & Hrows & _).
  destruct (make_preview_data_lookup _ _ k Hrows) as (d & Hd & Hcells).
  { apply lookup_lt_Some in Hk. unfold make_preview_data in Hrows.
    by rewrite (preview_loop_length _ _ _ Hrows), iterrows_length in Hk. }
  rewrite Hk in Hd. injection Hd as <-. rewrite Hcells.
  destruct (assoc col (columns (head 50 (imputed df)))) as [s|]; simpl; [|done].
  split.
  - intros f [= H]. by apply to_native_float in H.
  - intros v [= H]. by apply to_native_text in H.
Qed.

Lemma preview_has_no_nan_witness :
  ∃ body w' row,
    process_file (Some "gap.csv") gap_world = (Success body, w')
    ∧ preview_data body !! 0%nat = Some row
    ∧ row !! "x" = Some JNull
    ∧ (∀ f, row !! "x" = Some (JFloat f) → is_nan f = false).
Proof.
  eexists _, _, _. split; [vm_compute; reflexivity|].
  split; [vm_compute; reflexivity|]. split; [reflexivity|].
  refine (proj1 (preview_has_no_nan gap_world "gap.csv" gap_frame _ _ 0%nat _ "x"
                   _ _ _ _));
    [reflexivity | reflexivity | vm_compute; reflexivity | reflexivity].
Defined.

Lemma dtypes_head_imputed n df :
  map (fun c => Series_dtype (snd c)) (columns (head n (imputed df)))
  = map (fun c => Series_dtype (snd c)) (columns df).
Proof.
  unfold head, imputed, impute_columns. simpl. rewrite !map_map.
  apply map_ext. intros [c s]. simpl.
  destruct (is_number (Series_dtype s)); simpl;
    [rewrite <- (impute_series_dtype s); by destruct (impute_series s)
    | by destruct s].
Qed.

Lemma forallb_fmap {A B} (f : A → B) (g : B → bool) l :
  forallb g (map f l) = forallb (fun x => g (f x)) l.
Proof. induction l; simpl; [done|]. by rewrite IHl. Qed.

Lemma common_dtype_uniform d ds :
  forallb (fun d' => bool_decide (d' = d)) ds = true → ds ≠ [] →
  common_dtype ds = d.
Proof.
  destruct ds as [|d0 ds]; [done|]. simpl. intros H _.
  apply andb_true_iff in H as [H0 H]. apply bool_decide_eq_true in H0. subst d0.
  by rewrite H.
Qed.

(** X13.  In a table whose columns all have one and the same numeric dtype
    the preview shows the processed cells in their own type: an integer
    cell as that integer, a floating-point cell as that float, or as null
    when it is still missing. *)
Theorem preview_of_uniform_table w filename df body w' d processed col s' k :
  files w !! filename = Some df →
  well_formed df = true →
  process_file (Some filename) w = (Success body, w') →
  is_number d = true →
  forallb (fun c => bool_decide (Series_dtype (snd c) = d)) (columns df) = true →
  files w' !! processed_filename body = Some processed →
  getitem processed col = Ok s' →
  (k < Nat.min 50 (index_len df))%nat →
  ∃ row,
    preview_data body !! k = Some row
    ∧ match s' with
      | Int64Series l => ∃ z, l !! k = Some z ∧ row !! col = Some (JInt z)
      | Float64Series l =>
          ∃ x, l !! k = Some x
               ∧ row !! col = Some (if is_nan x then JNull else JFloat x)
      | _ => False
      end.
Proof.
  intros Hfile Hwf Hrun Hd Huni Hproc Hg Hk.
  pose proof (well_formed_NoDup df Hwf) as Hnd.
  destruct (process_file_Success_inv _ _ _ _ _ Hfile Hnd Hrun)
    as (_ & -> & Hname & _ & _ & Hrows & _).
  rewrite Hname in Hproc. simpl in Hproc. rewrite lookup_insert_eq in Hproc.
  injection Hproc as <-.
  destruct (make_preview_data_lookup _ _ k Hrows) as (row & Hrow & Hcells);
    [exact Hk|].
  exists row. split; [done|]. rewrite Hcells. clear Hcells Hrow.
  assert (Hlen : Series_len s' = index_len df).
  { apply (well_formed_len (imputed df) col s'); [|done].
    by rewrite well_formed_imputed. }
  unfold getitem in Hg.
  destruct (assoc col (columns (imputed df))) as [s|] eqn:Ha; [|done].
  injection Hg as ->.
  assert (Hds : map (fun c => Series_dtype (snd c)) (columns df) ≠ []).
  { apply assoc_Some_elem_of in Ha. unfold imputed, impute_columns in Ha. simpl in Ha.
    intros Hnil. apply map_eq_nil in Hnil. rewrite Hnil in Ha.
    by apply elem_of_nil in Ha. }
  assert (Hs' : Series_dtype s' = d).
  { apply assoc_Some_elem_of in Ha. unfold imputed, impute_columns in Ha. simpl in Ha.
    apply list_elem_of_fmap in Ha as ([c0 s0] & Heq & Hc).
    rewrite forallb_forall in Huni.
    specialize (Huni _ (proj1 (list_elem_of_In _ _) Hc)). simpl in *.
    apply bool_decide_eq_true in Huni.
    destruct (is_number (Series_dtype s0)); injection Heq as _ ->;
      by rewrite ?impute_series_dtype. }
  rewrite dtypes_head_imputed, (common_dtype_uniform d); [|by rewrite forallb_fmap|done].
  unfold head. simpl. simpl in Ha. rewrite (assoc_map_snd (Series_head 50)), Ha. simpl.
  assert (Hk50 : (k < 50)%nat) by lia.
  assert (Hkn : (k < index_len df)%nat) by lia. clear Hk.
  destruct s' as [l|l|l|l]; simpl in *; subst d; try done.
  - destruct (lookup_lt_is_Some_2 l k) as [z Hz]; [lia|].
    exists z. split; [done|]. f_equal. cbn [astype].
    erewrite list_lookup_total_correct;
      [|rewrite list_lookup_fmap, lookup_take_lt by lia; by rewrite Hz].
    done.
  - destruct (lookup_lt_is_Some_2 l k) as [x Hx]; [lia|].
    exists x. split; [done|]. f_equal. cbn [astype].
    erewrite list_lookup_total_correct;
      [|rewrite list_lookup_fmap, lookup_take_lt by lia; by rewrite Hx].
    unfold to_native. simpl. by destruct (is_nan x).
Qed.

Lemma preview_of_uniform_table_witness :
  ∃ body w' row,
    process_file (Some "t.csv") age_world = (Success body, w')
    ∧ preview_data body !! 1%nat = Some row
    ∧ ∃ x, [25; 30; 35; 30]%float !! 1%nat = Some x
           ∧ row !! "age" = Some (if is_nan x then JNull else JFloat x).
Proof.
  edestruct (preview_of_uniform_table age_world "t.csv" age_frame)
    with (d := float64) (col := "age") (s' := Float64Series [25; 30; 35; 30]%float)
         (k := 1%nat)
    as (row & Hrow & Hcell);
    [reflexivity | reflexivity | vm_compute; reflexivity | reflexivity | reflexivity
    | vm_compute; reflexivity | reflexivity | simpl; lia |].
  eexists _, _, row. split; [vm_compute; reflexivity|].
  split; [exact Hrow | exact Hcell].
Defined.

(** ** File names *)

Lemma after_first_None c s : after_first c s = None ↔ occurs c s = false.
Proof.
  induction s as [|a s IH]; simpl; [done|].
  destruct (Ascii.eqb a c); simpl; [split; discriminate | exact IH].
Qed.

Lemma after_first_app c s t :
  occurs c s = false → after_first c (s +:+ String c t) = Some t.
Proof.
  induction s as [|a s IH]; simpl.
  - intros _. by rewrite Ascii.eqb_refl.
  - intros H. apply orb_false_iff in H as [-> H]. auto.
Qed.

Lemma after_last_None c s : occurs c s = false → after_last c s = None.
Proof.
  induction s as [|a s IH]; simpl; [done|]. intros H.
  apply orb_false_iff in H as [Ha H]. by rewrite (IH H), Ha.
Qed.

Lemma after_last_app c stem t :
  occurs c t = false → after_last c (stem +:+ String c t) = Some t.
Proof.
  intros Hocc. induction stem as [|a stem IH]; simpl.
  - by rewrite (after_last_None c t Hocc), Ascii.eqb_refl.
  - by rewrite IH.
Qed.

Lemma after_last_split c s : ∀ t,
  after_last c s = Some t → ∃ stem, s = stem +:+ String c t ∧ occurs c t = false.
Proof.
  induction s as [|a s IH]; intros t; simpl; [done|].
  destruct (after_last c s) as [t'|] eqn:Hlast.
  - intros [= ->]. destruct (IH t eq_refl) as (stem & -> & Hocc).
    by exists (String a stem).
  - destruct (Ascii.eqb_spec a c) as [->|Hne]; [|done].
    intros [= ->]. exists EmptyString. split; [done|].
    clear IH. induction t as [|b t IHt]; simpl in *; [done|].
    destruct (after_last c t); [done|].
    destruct (Ascii.eqb b c); [done|]. simpl. by apply IHt.
Qed.

Lemma after_last_Some c s t :
  after_last c s = Some t ↔ ∃ stem, s = stem +:+ String c t ∧ occurs c t = false.
Proof.
  split; [apply after_last_split|]. intros (stem & -> & Hocc).
  by apply after_last_app.
Qed.

Lemma after_last_occurs c s : is_Some (after_last c s) ↔ occurs c s = true.
Proof.
  induction s as [|a s IH]; simpl.
  - split; [by intros [? ?] | done].
  - destruct (after_last c s) as [t|].
    + split; [intros _|eauto]. rewrite (proj1 IH); [apply orb_true_r | eauto].
    + destruct (Ascii.eqb a c); simpl; [split; eauto|].
      split; [by intros [? ?]|]. intros H. apply IH in H. by destruct H.
Qed.

(** X14.  [allowed_file] accepts exactly the names that end in a dot
    followed by [csv] in any mix of upper and lower case: the name has a
    dot, and what follows its last dot lowers to [csv]. *)
Theorem allowed_file_iff filename :
  allowed_file filename = true ↔
  ∃ stem ext, filename = stem +:+ String dot ext
              ∧ occurs dot ext = false
              ∧ lower ext = "csv".
Proof.
  unfold allowed_file. split.
  - intros H. apply andb_true_iff in H as [_ H].
    destruct (after_last dot filename) as [ext|] eqn:Hlast; [|done].
    apply after_last_Some in Hlast as (stem & -> & Hocc).
    exists stem, ext. split; [done|]. split; [done|]. by apply String.eqb_eq.
  - intros (stem & ext & -> & Hocc & Hlow).
    assert (Hlast : after_last dot (stem +:+ String dot ext) = Some ext).
    { apply after_last_Some. eauto. }
    rewrite Hlast, Hlow. rewrite (proj1 (after_last_occurs _ _)); [done | eauto].
Qed.

Lemma allowed_file_iff_witness :
  allowed_file "Report.2024.CSV" = true.
Proof.
  apply (proj2 (allowed_file_iff "Report.2024.CSV")).
  exists "Report.2024", "CSV". repeat split.
Defined.

(** ** [download_file] *)

Lemma replace_absent old new s :
  contains old s = false → replace old new s = s.
Proof.
  unfold replace. induction s as [|a s IH]; [done|].
  intros H. cbn [contains] in H. apply orb_false_iff in H as [Hpre H].
  cbn [replace_from]. by rewrite Hpre, (IH H).
Qed.

Lemma prefix_app s t : String.prefix s (s +:+ t) = true.
Proof.
  induction s as [|a s IH]; simpl; [by destruct t|].
  by destruct (Ascii.ascii_dec a a).
Qed.

Lemma replace_from_skip old new t rest :
  replace_from old new (String.length t) (t +:+ rest) = replace_from old new 0 rest.
Proof. induction t as [|a t IH]; simpl; [done | exact IH]. Qed.

(** An occurrence at the head is replaced and the scan goes on behind it. *)
Lemma replace_head a t new rest :
  replace (String a t) new (String a t +:+ rest)
  = new +:+ replace (String a t) new rest.
Proof.
  unfold replace. change (String a t +:+ rest) with (String a (t +:+ rest)).
  cbn [replace_from].
  change (String a (t +:+ rest)) with (String a t +:+ rest).
  rewrite prefix_app. cbn [String.length].
  replace (S (String.length t) - 1)%nat with (String.length t) by lia.
  by rewrite replace_from_skip.
Qed.

Lemma replace_processed_prefix rest :
  replace "processed_" EmptyString ("processed_" +:+ rest)
  = replace "processed_" EmptyString rest.
Proof. apply (replace_head _ _ EmptyString rest). Qed.



(** X16.  The download name of the processed file of an upload is
    [imputed_] followed by the uploaded name: for the stored name
    [processed_<timestamp>_<name>], where the timestamp has no underscore
    and [processed_] does not occur in [<timestamp>_<name>], the file sent
    is the stored one, under the name [imputed_<name>]. *)
Theorem download_name_of_processed_upload w timestamp name df :
  files w !! ("processed_" +:+ timestamp +:+ String underscore name) = Some df →
  occurs underscore timestamp = false →
  contains "processed_" (timestamp +:+ String underscore name) = false →
  download_file ("processed_" +:+ timestamp +:+ String underscore name) w
  = (R200 {| sent := df; download_name := "imputed_" +:+ name |}, w).
Proof.
  intros Hfile Hts Hname. unfold download_file. rewrite Hfile.
  rewrite replace_processed_prefix, (replace_absent _ _ _ Hname).
  by rewrite (after_first_app _ _ _ Hts).
Qed.

Lemma download_name_of_processed_upload_witness :
  download_file "processed_1700000000_data.csv"
    {| files := {["processed_1700000000_data.csv" := age_frame]}; heap := [] |}
  = (R200 {| sent := age_frame; download_name := "imputed_data.csv" |},
     {| files := {["processed_1700000000_data.csv" := age_frame]}; heap := [] |}).
Proof.
  apply (download_name_of_processed_upload
           {| files := {["processed_1700000000_data.csv" := age_frame]}; heap := [] |}
           "1700000000" "data.csv" age_frame); reflexivity.
Defined.

(** X17.  A stored file whose name, once every [processed_] is struck out,
    has no underscore cannot be downloaded: indexing the split name raises
    [IndexError] and the answer is a 500.  These are the only downloads
    that fail on a stored file. *)
Theorem download_needs_underscore filename w df :
  files w !! filename = Some df →
  ((download_file filename w).1 = R500 IndexError
   ↔ occurs underscore (replace "processed_" EmptyString filename) = false).
Proof.
  intros Hfile. unfold download_file. rewrite Hfile.
  destruct (after_first underscore (replace "processed_" EmptyString filename))
    as [name|] eqn:Ha; simpl.
  - split; [done|]. intros H. apply after_first_None in H. congruence.
  - split; [|done]. intros _. by apply after_first_None.
Qed.

Lemma download_needs_underscore_witness :
  (download_file "processed_data.csv"
     {| files := {["processed_data.csv" := age_frame]}; heap := [] |}).1
  = R500 IndexError.
Proof.
  refine (proj2 (download_needs_underscore "processed_data.csv"
                   {| files := {["processed_data.csv" := age_frame]}; heap := [] |}
                   age_frame _) _); reflexivity.
Defined.

(** ** [cleanup_files] *)

(** On the file map the loop never raises: a file is removed only after
    it was found.  It leaves the heap alone, deletes every listed name, and appends to
    [cleaned] each listed name that was stored, once. *)
Lemma cleanup_loop_spec filenames : ∀ cleaned w,
  ∃ removed fs',
    cleanup_loop filenames cleaned w
    = (Ok (cleaned ++ removed), {| files := fs'; heap := heap w |})
    ∧ (∀ x, fs' !! x = if decide (x ∈ filenames) then None else files w !! x)
    ∧ NoDup removed
    ∧ (∀ x, x ∈ removed ↔ x ∈ filenames ∧ is_Some (files w !! x)).
Proof.
  induction filenames as [|f rest IH]; intros cleaned w.
  - exists [], (files w). rewrite app_nil_r. split; [by destruct w|].
    split; [done|]. split; [constructor|].
    intros x. split; [intros H; by apply elem_of_nil in H|].
    intros [H _]. by apply elem_of_nil in H.
  - cbn [cleanup_loop]. unfold mbind at 1, M_bind at 1, os_path_exists.
    destruct (files w !! f) as [df|] eqn:Hf.
    + rewrite bool_decide_eq_true_2 by eauto.
      unfold mbind at 1, M_bind at 1, os_remove. rewrite Hf.
      destruct (IH (cleaned ++ [f]) {| files := delete f (files w); heap := heap w |})
        as (removed & fs' & -> & Hfs & Hnd & Hin).
      simpl in *. exists (f :: removed), fs'.
      split; [by rewrite <- app_assoc|]. split; [|split].
      * intros x. rewrite Hfs. destruct (decide (x ∈ rest)) as [Hx|Hx].
        -- rewrite decide_True; [done | by right].
        -- destruct (decide (x = f)) as [->|Hne].
           ++ rewrite decide_True by left. apply lookup_delete_eq.
           ++ rewrite decide_False; [by apply lookup_delete_ne|].
              intros H. apply elem_of_cons in H as [?|?]; done.
      * apply NoDup_cons. split; [|done]. intros H. apply Hin in H as [_ [? H]].
        by rewrite lookup_delete_eq in H.
      * intros x. rewrite elem_of_cons, Hin. split.
        -- intros [->|[Hx [y Hy]]]; [split; [left | eauto]|].
           split; [by right|]. destruct (decide (x = f)) as [->|Hne].
           ++ by rewrite lookup_delete_eq in Hy.
           ++ rewrite lookup_delete_ne in Hy by done. eauto.
        -- intros [Hx [y Hy]]. destruct (decide (x = f)) as [->|Hne]; [by left|].
           right. apply elem_of_cons in Hx as [?|Hx]; [done|].
           split; [done|]. rewrite lookup_delete_ne by done. eauto.
    + rewrite bool_decide_eq_false_2 by (by intros [? ?]).
      destruct (IH cleaned w) as (removed & fs' & -> & Hfs & Hnd & Hin).
      exists removed, fs'. split; [done|]. split; [|split; [done|]].
      * intros x. rewrite Hfs. destruct (decide (x ∈ rest)) as [Hx|Hx].
        -- rewrite decide_True; [done | by right].
        -- destruct (decide (x = f)) as [->|Hne].
           ++ by rewrite decide_True by left.
           ++ rewrite decide_False; [done|].
              intros H. apply elem_of_cons in H as [?|?]; done.
      * intros x. rewrite Hin. split.
        -- intros [Hx Hs]. split; [by right | done].
        -- intros [Hx [y Hy]]. apply elem_of_cons in Hx as [->|Hx]; [congruence|].
           eauto.
Qed.





(** X20.  Cleaning up twice is cleaning up once: a second request with the
    same list finds nothing to remove and leaves the world as it is. *)
Theorem cleanup_twice entry w report w' :
  cleanup_files (Some entry) w = (R200 report, w') →
  cleanup_files (Some entry) w'
  = (R200 {| cleaned_total := 0; cleaned_files := [] |}, w').
Proof.
  intros Hrun. unfold cleanup_files in *.
  destruct (cleanup_loop_spec (default [] entry) [] w)
    as (removed & fs' & Hloop & Hfs & _).
  rewrite Hloop in Hrun. injection Hrun as _ <-.
  destruct (cleanup_loop_spec (default [] entry) []
              {| files := fs'; heap := heap w |})
    as (removed2 & fs2 & -> & Hfs2 & _ & Hin2).
  simpl in *.
  assert (removed2 = []) as ->.
  { destruct removed2 as [|x r]; [done|]. exfalso.
    destruct (proj1 (Hin2 x)) as [Hx [y Hy]]; [left|].
    by rewrite Hfs, decide_True in Hy. }
  assert (fs2 = fs') as ->; [|done].
  apply map_eq. intros x. rewrite Hfs2.
  destruct (decide (x ∈ default [] entry)); [|done]. by rewrite Hfs, decide_True.
Qed.

Lemma cleanup_twice_witness :
  ∃ report w',
    cleanup_files (Some (Some ["t.csv"; "nope.csv"; "t.csv"])) age_world
    = (R200 report, w')
    ∧ cleanup_files (Some (Some ["t.csv"; "nope.csv"; "t.csv"])) w'
      = (R200 {| cleaned_total := 0; cleaned_files := [] |}, w').
Proof.
  eexists _, _. split; [vm_compute; reflexivity|].
  eapply (cleanup_twice (Some ["t.csv"; "nope.csv"; "t.csv"]) age_world).
  vm_compute; reflexivity.
Defined.

(** A cleanup with a list that names a stored file twice, evaluated. *)
Example cleanup_sample :
  ∃ w', cleanup_files (Some (Some ["t.csv"; "nope.csv"; "t.csv"])) age_world
        = (R200 {| cleaned_total := 1; cleaned_files := ["t.csv"] |}, w')
        ∧ files w' !! "t.csv" = None.
Proof. eexists. split; [vm_compute; reflexivity | reflexivity]. Qed.

(** X21.  What a cleanup removed is gone for the other routes: a later
    [process_file] or [download_file] on a listed name answers 404. *)
Theorem cleaned_files_are_not_found entry w report w' x :
  cleanup_files (Some entry) w = (R200 report, w') →
  x ∈ default [] entry →
  process_file (Some x) w' = (NotFound "File not found", w')
  ∧ download_file x w' = (R404 "File not found", w').
Proof.
  intros Hrun Hx. unfold cleanup_files in Hrun.
  destruct (cleanup_loop_spec (default [] entry) [] w)
    as (removed & fs' & Hloop & Hfs & _).
  rewrite Hloop in Hrun. injection Hrun as _ <-.
  assert (Hnone : fs' !! x = None) by (by rewrite Hfs, decide_True).
  split.
  - unfold process_file, process_file_try.
    unfold mbind at 1, M_bind at 1. unfold os_path_exists. simpl. rewrite Hnone.
    rewrite bool_decide_eq_false_2; [done|]. by intros [? ?].
  - unfold download_file. simpl. by rewrite Hnone.
Qed.

Lemma cleaned_files_are_not_found_witness :
  ∃ report w',
    cleanup_files (Some (Some ["t.csv"])) age_world = (R200 report, w')
    ∧ process_file (Some "t.csv") w' = (NotFound "File not found", w')
    ∧ download_file "t.csv" w' = (R404 "File not found", w').
Proof.
  eexists _, _. split; [vm_compute; reflexivity|].
  eapply (cleaned_files_are_not_found (Some ["t.csv"]) age_world);
    [vm_compute; reflexivity | left].
Defined.

(** ** [upload_file] *)

(** The name under which an upload is stored. *)
Lemma upload_parsed secure_filename timestamp file w content :
  allowed_file (up_filename file) = true →
  up_parse file = inl content →
  upload_file secure_filename timestamp (Some file) w
  = (R200 {| info_filename := timestamp +:+ "_" +:+ secure_filename (up_filename file);
             info_original_filename := up_filename file;
             info_rows := index_len content;
             info_columns := length (columns content);
             info_column_names := column_names content;
             info_file_size := up_size file |},
     {| files := <[timestamp +:+ "_" +:+ secure_filename (up_filename file) := content]>
                   (files w);
        heap := heap w ++ [content] |}).
Proof.
  intros Hallowed Hparse. unfold upload_file. rewrite Hallowed, Hparse.
  destruct (String.eqb_spec (up_filename file) EmptyString) as [Heq|_].
  { rewrite Heq in Hallowed. discriminate. }
  cbn [negb]. cbn zeta.
  unfold mbind, M_bind, read_csv, deref, new_frame. cbn [files heap].
  rewrite lookup_insert_eq. cbn [files heap]. by rewrite heap_lookup_total_last.
Qed.

(** X22.  An upload is answered 200 exactly when its name passes
    [allowed_file] and its content parses; every other upload is answered
    with an error. *)
Theorem upload_accepted_iff secure_filename timestamp file w :
  (∃ info, (upload_file secure_filename timestamp (Some file) w).1 = R200 info)
  ↔ allowed_file (up_filename file) = true ∧ ∃ content, up_parse file = inl content.
Proof.
  split.
  - intros [info H]. unfold upload_file in H.
    destruct (String.eqb (up_filename file) EmptyString); [done|].
    destruct (allowed_file (up_filename file)); [|done]. split; [done|].
    destruct (up_parse file) as [content|message]; [eauto | done].
  - intros [Hallowed [content Hparse]].
    rewrite (upload_parsed _ _ _ _ _ Hallowed Hparse). by eexists.
Qed.

(** X23.  An upload that is not stored cleans up after itself: when the
    content does not parse the answer is the 400 error carrying the parser's
    message, and afterwards no file exists under the generated name, not
    even one that was stored there before. *)
Theorem upload_invalid_csv_removed secure_filename timestamp file w message :
  allowed_file (up_filename file) = true →
  up_parse file = inr message →
  ∃ w', upload_file secure_filename timestamp (Some file) w
        = (R400 ("Invalid CSV file: " +:+ message), w')
        ∧ files w' !! (timestamp +:+ "_" +:+ secure_filename (up_filename file)) = None
        ∧ heap w' = heap w.
Proof.
  intros Hallowed Hparse. unfold upload_file. rewrite Hallowed, Hparse.
  destruct (String.eqb_spec (up_filename file) EmptyString) as [Heq|_].
  { rewrite Heq in Hallowed. discriminate. }
  eexists. split; [done|]. simpl. split; [apply lookup_delete_eq | done].
Qed.

(** X24.  Whatever the outcome, an upload touches at most the file of its
    own generated name: every other stored file is as it was, and so is
    every object of the heap. *)
Theorem upload_keeps_other_files secure_filename timestamp req w x :
  (∀ file, req = Some file →
           x ≠ timestamp +:+ "_" +:+ secure_filename (up_filename file)) →
  files (upload_file secure_filename timestamp req w).2 !! x = files w !! x
  ∧ ∀ r df, heap w !! r = Some df →
            heap (upload_file secure_filename timestamp req w).2 !! r = Some df.
Proof.
  intros Hx. unfold upload_file. destruct req as [file|]; [|done].
  specialize (Hx file eq_refl).
  destruct (String.eqb (up_filename file) EmptyString); [done|].
  destruct (allowed_file (up_filename file)); [|done]. cbn [negb]. cbn zeta.
  destruct (up_parse file) as [content|message].
  - unfold mbind, M_bind, read_csv, deref, new_frame. cbn [files heap].
    rewrite lookup_insert_eq. cbn [files heap snd].
    split; [by rewrite lookup_insert_ne|]. intros r df Hr. by apply lookup_app_l_Some.
  - simpl. split; [by rewrite lookup_delete_ne | done].
Qed.

Lemma upload_invalid_csv_removed_witness :
  ∃ w', upload_file (fun name => name) "1700000000" (Some bad_upload)
          {| files := {["1700000000_bad.csv" := age_frame]}; heap := [] |}
        = (R400 "Invalid CSV file: No columns to parse from file", w')
        ∧ files w' !! "1700000000_bad.csv" = None
        ∧ heap w' = [].
Proof.
  apply (upload_invalid_csv_removed (fun name => name) "1700000000" bad_upload
           {| files := {["1700000000_bad.csv" := age_frame]}; heap := [] |});
    reflexivity.
Defined.

Lemma upload_keeps_other_files_witness :
  files (upload_file (fun name => name) "1700000000" (Some age_upload) age_world).2
    !! "t.csv"
  = files age_world !! "t.csv".
Proof.
  refine (proj1 (upload_keeps_other_files (fun name => name) "1700000000"
                   (Some age_upload) age_world "t.csv" _)).
  intros file [= <-]. discriminate.
Defined.

(** ** From upload to download *)

(** X25.  What is uploaded can be processed: after an accepted upload of a
    well-formed table with a numeric column, [process_file] on the file
    name of the answer succeeds, its report counts the rows and columns the
    upload announced, and the processed table is stored next to the
    upload, which is kept. *)
Theorem upload_then_process secure_filename timestamp file w content :
  allowed_file (up_filename file) = true →
  up_parse file = inl content →
  well_formed content = true →
  select_dtypes_number content ≠ [] →
  ∃ info w1 body w2,
    upload_file secure_filename timestamp (Some file) w = (R200 info, w1)
    ∧ process_file (Some (info_filename info)) w1 = (Success body, w2)
    ∧ total_rows (resp_stats body) = info_rows info
    ∧ total_columns (resp_stats body) = info_columns info
    ∧ files w2 !! info_filename info = Some content
    ∧ files w2 !! processed_filename body = Some (imputed content).
Proof.
  intros Hallowed Hparse Hwf Hsel.
  rewrite (upload_parsed _ _ _ _ _ Hallowed Hparse).
  set (name := timestamp +:+ "_" +:+ secure_filename (up_filename file)).
  set (w1 := {| files := <[name := content]> (files w); heap := heap w ++ [content] |}).
  pose proof (well_formed_NoDup content Hwf) as Hnd.
  assert (Hfile : files w1 !! name = Some content) by apply lookup_insert_eq.
  destruct (process_file_success w1 name content Hfile Hnd Hsel)
    as (st & rows & flags & Hrun & Hst & _).
  destruct (stats_spec content (imputed content) (select_dtypes_number content))
    as (st' & Hst' & Hrows & Hcolumns & _).
  { intros c. by apply select_dtypes_number_getitem. }
  rewrite Hst in Hst'. injection Hst' as <-.
  eexists _, _, _, _. split; [done|]. split; [exact Hrun|]. simpl.
  split; [done|]. split; [done|].
  split; [|by rewrite lookup_insert_eq].
  rewrite lookup_insert_ne; [done|]. apply processed_name_fresh.
Qed.

Lemma upload_then_process_witness :
  ∃ info w1 body w2,
    upload_file (fun name => name) "1700000000" (Some age_upload) age_world
    = (R200 info, w1)
    ∧ process_file (Some (info_filename info)) w1 = (Success body, w2)
    ∧ total_rows (resp_stats body) = info_rows info
    ∧ total_columns (resp_stats body) = info_columns info
    ∧ files w2 !! info_filename info = Some age_frame
    ∧ files w2 !! processed_filename body = Some (imputed age_frame).
Proof.
  apply (upload_then_process (fun name => name) "1700000000" age_upload age_world
           age_frame); try reflexivity.
  discriminate.
Defined.

(** X26.  The name comes back: for an accepted upload of a well-formed
    table with a numeric column, stored under a timestamp without
    underscore and a secured name in which [processed_] does not occur,
    processing and then downloading the processed file sends the processed
    table under the name [imputed_] followed by the secured name. *)
Theorem upload_process_download secure_filename timestamp file w content :
  allowed_file (up_filename file) = true →
  up_parse file = inl content →
  well_formed content = true →
  select_dtypes_number content ≠ [] →
  occurs underscore timestamp = false →
  contains "processed_" (timestamp +:+ "_" +:+ secure_filename (up_filename file))
  = false →
  ∃ info w1 body w2,
    upload_file secure_filename timestamp (Some file) w = (R200 info, w1)
    ∧ process_file (Some (info_filename info)) w1 = (Success body, w2)
    ∧ download_file (processed_filename body) w2
      = (R200 {| sent := imputed content;
                 download_name := "imputed_" +:+ secure_filename (up_filename file) |},
         w2).
Proof.
  intros Hallowed Hparse Hwf Hsel Hts Hname.
  rewrite (upload_parsed _ _ _ _ _ Hallowed Hparse).
  set (name := timestamp +:+ "_" +:+ secure_filename (up_filename file)) in *.
  set (w1 := {| files := <[name := content]> (files w); heap := heap w ++ [content] |}).
  pose proof (well_formed_NoDup content Hwf) as Hnd.
  assert (Hfile : files w1 !! name = Some content) by apply lookup_insert_eq.
  destruct (process_file_success w1 name content Hfile Hnd Hsel)
    as (st & rows & flags & Hrun & _).
  eexists _, _, _, _. split; [done|]. split; [exact Hrun|]. simpl.
  unfold download_file. simpl. rewrite lookup_insert_eq.
  rewrite replace_processed_prefix, (replace_absent _ _ _ Hname).
  unfold name.
  change ("_" +:+ secure_filename (up_filename file))
    with (String underscore (secure_filename (up_filename file))).
  by rewrite (after_first_app _ _ _ Hts).
Qed.

Lemma upload_process_download_witness :
  ∃ info w1 body w2,
    upload_file (fun name => name) "1700000000" (Some age_upload) age_world
    = (R200 info, w1)
    ∧ process_file (Some (info_filename info)) w1 = (Success body, w2)
    ∧ download_file (processed_filename body) w2
      = (R200 {| sent := imputed age_frame; download_name := "imputed_Ages.CSV" |}, w2).
Proof.
  apply (upload_process_download (fun name => name) "1700000000" age_upload age_world
           age_frame); try reflexivity.
  discriminate.
Defined.

(** A name with [processed_] in it does not come back whole. *)
Example download_name_loses_processed :
  download_file "processed_1700000000_processed_data.csv"
    {| files := {["processed_1700000000_processed_data.csv" := age_frame]}; heap := [] |}
  = (R200 {| sent := age_frame; download_name := "imputed_data.csv" |},
     {| files := {["processed_1700000000_processed_data.csv" := age_frame]}; heap := [] |}).
Proof. reflexivity. Qed.
